(** * qnet: the IPv4 tiebreaker of a cluster quorum daemon

  A shallow embedding of [ping.c] (ICMP echo primitive and the
  stand-alone ping program), [cluquorumd_net.c] (threshold calculator
  and liveness voter thread) and [node_count] of [qnet.c], followed by
  the properties of the specification that concern them and by further
  properties of the code.

  Platform conventions.  The code is Linux-only (raw sockets, syslog,
  cman) and is modelled as compiled by gcc for x86: [int] is 32 bits,
  [long] is 64 bits, [char] is a signed 8-bit integer, integers are
  two's complement and multi-byte loads and stores are little-endian.
  Every C integer is a [Z] and the conversion that C performs at an
  assignment or an operator is written out ([u32], [u16], [s32],
  [s8]). *)

From Stdlib Require Import ZArith List String Ascii Bool Lia.
From Stdlib.Strings Require Import Byte.
From Stdlib Require Import DecimalString.
Import ListNotations.

Local Open Scope Z_scope.

(* ================================================================== *)
(** * C integer types *)
(* ================================================================== *)

Module CInt.

(** Conversion to an unsigned type of [w] bits. *)
Definition wrapu (w z : Z) : Z := z mod 2 ^ w.

(** Conversion to a signed type of [w] bits (what gcc does; the
    standard leaves the out-of-range case to the implementation). *)
Definition wraps (w z : Z) : Z :=
  (z + 2 ^ (w - 1)) mod 2 ^ w - 2 ^ (w - 1).

Definition u32 : Z -> Z := wrapu 32.
Definition u16 : Z -> Z := wrapu 16.
Definition u8 : Z -> Z := wrapu 8.
Definition s32 : Z -> Z := wraps 32.
Definition s8 : Z -> Z := wraps 8.

Definition INT_MAX : Z := 2147483647.
Definition INT_MIN : Z := -2147483648.

(** [z] is a value of type [int]. *)
Definition in_int (z : Z) : Prop := INT_MIN <= z <= INT_MAX.

End CInt.
Import CInt.

(* ================================================================== *)
(** * Bytes and buffers *)
(* ================================================================== *)

Module Mem.

(** The value of a byte as an [unsigned char]. *)
Definition byte_val (b : byte) : Z := Z.of_N (Byte.to_N b).

(** The value of a byte read through a [char *] (signed). *)
Definition char_val (b : byte) : Z := s8 (byte_val b).

Definition byte_of_Z (z : Z) : byte :=
  match Byte.of_N (Z.to_N (z mod 256)) with
  | Some b => b
  | None => x00
  end.

(** A [uint16_t] load of two bytes in memory order. *)
Definition load16 (b0 b1 : byte) : Z := byte_val b0 + 256 * byte_val b1.

(** The two bytes a [uint16_t] store writes. *)
Definition bytes16 (v : Z) : list byte :=
  [byte_of_Z (u16 v); byte_of_Z (u16 v / 256)].

(** Byte at offset [off] of a buffer (zero past its end; the model never
    reads there). *)
Definition get (buf : list byte) (off : Z) : byte :=
  nth (Z.to_nat off) buf x00.

(** Overwrite the bytes at [off .. off + length data) of a buffer. *)
Definition put (buf : list byte) (off : Z) (data : list byte) : list byte :=
  firstn (Z.to_nat off) buf ++ data
    ++ skipn (Z.to_nat off + List.length data) buf.

Definition get16 (buf : list byte) (off : Z) : Z :=
  load16 (get buf off) (get buf (off + 1)).

(** [len] bytes of a buffer from [off]. *)
Definition slice (buf : list byte) (off : Z) (len : nat) : list byte :=
  firstn len (skipn (Z.to_nat off) buf).

End Mem.
Import Mem.

(* ================================================================== *)
(** * ping.c *)
(* ================================================================== *)

Module Ping.

(** ** ping.h *)

Definition PING_ERRNO : Z := -1.
Definition PING_SUCCESS : Z := 0.
Definition PING_ALIVE : Z := PING_SUCCESS.
Definition PING_TIMEOUT : Z := 1.
Definition PING_HOST_UNREACH : Z := 2.
Definition PING_HOST_NOT_FOUND : Z := 3.
Definition PING_INVALID_CHECKSUM : Z := 4.
Definition PING_INVALID_RESPONSE : Z := 5.
Definition PING_INVALID_SIZE : Z := 6.
Definition PING_INVALID_ID : Z := 7.

(** ** icmp_checksum *)

(** The summation loop and the clean-up of the last byte.  [data] holds
    the [remain] bytes that are still to be read; [sum] is a
    [uint32_t].  The last byte is read through [char *data], so it is
    sign-extended before it is added. *)
Fixpoint checksum_loop (data : list byte) (sum : Z) : Z :=
  match data with
  | b0 :: b1 :: rest => checksum_loop rest (u32 (sum + load16 b0 b1))
  | [b] => u32 (sum + char_val b)
  | [] => sum
  end.

(** [icmp_checksum buf buflen], for the [buflen] bytes at [buf]. *)
Definition icmp_checksum (buf : list byte) : Z :=
  let sum := checksum_loop buf 0 in
  let sum := u32 (Z.shiftr sum 16 + Z.land sum 65535) in
  let sum := u32 (sum + Z.shiftr sum 16) in
  u16 (Z.land (u32 (Z.lnot sum)) 65535).

(** ** icmp_ping_getaddr *)

Definition AF_INET : Z := 2.

(** netdb.h: values of [h_errno]. *)
Definition HOST_NOT_FOUND : Z := 1.
Definition TRY_AGAIN : Z := 2.
Definition NO_RECOVERY : Z := 3.
Definition NO_DATA : Z := 4.
Definition NO_ADDRESS : Z := NO_DATA.

(** An IPv4 address: its four octets in network order. *)
Definition in_addr : Type := list byte.

Record sockaddr_in : Type := mk_sockaddr_in {
  sin_family : Z;
  sin_port : Z;
  sin_addr : in_addr
}.

(** What one call of [gethostbyname] answers: a host entry (of which the
    code uses [h_addr]) or [NULL] with [h_errno] set. *)
Inductive hostent_result : Type :=
| Hostent (h_addr : in_addr)
| HostError (h_errno : Z).

(** The library calls [icmp_ping_getaddr] makes, in order. *)
Inductive libcall : Type :=
| Inet_pton (src : string)
| Gethostbyname (name : string).

Record getaddr_result : Type := mk_getaddr_result {
  ga_ret : Z;
  ga_sin : sockaddr_in;
  ga_calls : list libcall
}.

(** ctype.h [isdigit] on [hostname[0]] (the terminating NUL for the
    empty string). *)
Definition isdigit (c : ascii) : bool :=
  let n := Z.of_nat (nat_of_ascii c) in (48 <=? n) && (n <=? 57).

Definition first_char (s : string) : ascii :=
  match s with
  | String c _ => c
  | EmptyString => zero
  end.

Section Getaddr.

(** libc's [inet_pton (AF_INET, src, dst)]: [Some a] when it returns 1
    and stores [a] at [dst], [None] when it returns 0 and stores
    nothing. *)
Variable inet_pton : string -> option in_addr.

(** The [while ((hp = gethostbyname (hostname)) == NULL)] loop and the
    [memcpy] after it.  [answers] are the results of the successive
    resolver calls; the loop is still spinning when they run out. *)
Fixpoint gethostbyname_loop (hostname : string) (sin : sockaddr_in)
    (answers : list hostent_result) (calls : list libcall)
    : option getaddr_result :=
  match answers with
  | [] => None
  | ans :: rest =>
      let calls := calls ++ [Gethostbyname hostname] in
      match ans with
      | HostError h_errno =>
          if h_errno =? TRY_AGAIN then
            gethostbyname_loop hostname sin rest calls
          else if (h_errno =? HOST_NOT_FOUND) || (h_errno =? NO_ADDRESS)
                  || (h_errno =? NO_RECOVERY) then
            Some (mk_getaddr_result PING_HOST_NOT_FOUND sin calls)
          else
            Some (mk_getaddr_result (-1) sin calls)
      | Hostent h_addr =>
          Some (mk_getaddr_result 0
                  (mk_sockaddr_in (sin_family sin) (sin_port sin) h_addr)
                  calls)
      end
  end.

Definition icmp_ping_getaddr (hostname : string)
    (answers : list hostent_result) : option getaddr_result :=
  let sin := mk_sockaddr_in AF_INET 0 [x00; x00; x00; x00] in
  if isdigit (first_char hostname) then
    match inet_pton hostname with
    | Some a =>
        Some (mk_getaddr_result 0
                (mk_sockaddr_in (sin_family sin) (sin_port sin) a)
                [Inet_pton hostname])
    | None =>
        gethostbyname_loop hostname sin answers [Inet_pton hostname]
    end
  else
    gethostbyname_loop hostname sin answers [].

End Getaddr.

(** A dotted-quad parser to stand for libc's [inet_pton] where a
    concrete one is needed: decimal octets of at most 255 without a
    leading zero, exactly four of them, separated by single dots (the
    behaviour of glibc's [inet_pton4]). *)
Fixpoint inet_pton4_loop (src : string) (saw_digit : bool) (octets : nat)
    (done : list Z) (cur : Z) : option (list Z) :=
  match src with
  | EmptyString =>
      if (octets <? 4)%nat then None else Some (done ++ [cur])
  | String ch src =>
      let n := Z.of_nat (nat_of_ascii ch) in
      if isdigit ch then
        let new := cur * 10 + (n - 48) in
        if saw_digit && (cur =? 0) then None
        else if 255 <? new then None
        else if saw_digit then inet_pton4_loop src true octets done new
        else if (4 <? S octets)%nat then None
        else inet_pton4_loop src true (S octets) done new
      else if (n =? 46) && saw_digit then
        if (octets =? 4)%nat then None
        else inet_pton4_loop src false octets (done ++ [cur]) 0
      else None
  end.

Definition inet_pton4 (src : string) : option in_addr :=
  option_map (map byte_of_Z) (inet_pton4_loop src false 0 [] 0).

(** ** icmp_ping_addrfd *)

(** netinet/ip_icmp.h *)
Definition ICMP_ECHOREPLY : Z := 0.
Definition ICMP_DEST_UNREACH : Z := 3.
Definition ICMP_ECHO : Z := 8.
Definition ICMP_MINLEN : Z := 8.

(** Offsets of the fields of [struct icmp] used by the code. *)
Definition off_icmp_type : Z := 0.
Definition off_icmp_cksum : Z := 2.
Definition off_icmp_id : Z := 4.
Definition off_icmp_seq : Z := 6.

(** [ipp->ip_hl]: the low four bits of the first byte of the IP
    header. *)
Definition ip_hl (buffer : list byte) : Z :=
  Z.land (byte_val (get buffer 0)) 15.

(** What the environment answers to the three system calls.  A failed
    call returns -1 and sets [errno]. *)
Inductive sendto_result : Type :=
| SendtoError (e : Z)
| SendtoSent (n : nat).

Inductive select_result : Type :=
| SelectError (e : Z)
| SelectTimeout
| SelectReady.

Inductive recvfrom_result : Type :=
| RecvfromError (e : Z)
| RecvfromData (datagram : list byte).

Definition sendto_ret (r : sendto_result) : Z :=
  match r with SendtoError _ => -1 | SendtoSent n => Z.of_nat n end.

Definition select_ret (r : select_result) : Z :=
  match r with SelectError _ => -1 | SelectTimeout => 0 | SelectReady => 1 end.

(** [recvfrom] stores at most [sizeof (buffer)] bytes. *)
Definition recvfrom_ret (r : recvfrom_result) : Z :=
  match r with
  | RecvfromError _ => -1
  | RecvfromData d => Z.of_nat (List.length (firstn 256 d))
  end.

Definition recvfrom_store (r : recvfrom_result) (buffer : list byte)
    : list byte :=
  match r with
  | RecvfromError _ => buffer
  | RecvfromData d => put buffer 0 (firstn 256 d)
  end.

Definition errno_after (failed : option Z) (errno : Z) : Z :=
  match failed with Some e => e | None => errno end.

Definition sendto_errno (r : sendto_result) : option Z :=
  match r with SendtoError e => Some e | SendtoSent _ => None end.

Definition select_errno (r : select_result) : option Z :=
  match r with SelectError e => Some e | _ => None end.

Definition recvfrom_errno (r : recvfrom_result) : option Z :=
  match r with RecvfromError e => Some e | RecvfromData _ => None end.

(** The answers the environment has ready for the calls to come, and
    the thread's [errno]. *)
Record world : Type := mk_world {
  errno : Z;
  sendto_answers : list sendto_result;
  select_answers : list select_result;
  recvfrom_answers : list recvfrom_result
}.

(** Where a piece of the function body leaves control: a [return], or
    the statement after it (a [continue] for the body of a loop). *)
Inductive flow (S : Type) : Type :=
| Return (rv : Z)
| Goes (s : S).
Arguments Return {S} rv.
Arguments Goes {S} s.

(** [uint16_t packetlen = sizeof (uint16_t) * ICMP_MINLEN]. *)
Definition packetlen : Z := u16 (2 * ICMP_MINLEN).

(** The echo request set up in [buffer]. *)
Definition echo_request (pid seq : Z) : list byte :=
  let buffer := repeat x00 256 in
  let buffer := put buffer off_icmp_type [byte_of_Z ICMP_ECHO] in
  let buffer := put buffer off_icmp_seq (bytes16 seq) in
  let buffer := put buffer off_icmp_id (bytes16 pid) in
  put buffer off_icmp_cksum
    (bytes16 (icmp_checksum (slice buffer 0 (Z.to_nat ICMP_MINLEN)))).

(** The send loop.  [x] is a [uint32_t]: the loop test compares it with
    [packetlen] as unsigned, and so does [x < 0]. *)
Fixpoint send_loop (answers : list sendto_result) (errno : Z)
    : option (flow unit * Z) :=
  match answers with
  | [] => None
  | r :: rest =>
      let x := u32 (sendto_ret r) in
      let errno := errno_after (sendto_errno r) errno in
      if x <? packetlen then
        if x <? 0 then Some (Return (-1), errno)
        else send_loop rest errno
      else Some (Goes tt, errno)
  end.

(** The pieces of the loop body, named after what they decide.  [x] is
    the [uint32_t] that holds what [recvfrom] returned and [buffer] is
    the receive buffer at that point. *)

(** [(ipp->ip_hl << 2)], the offset of [packetp] in [buffer]. *)
Definition packetp (buffer : list byte) : Z := Z.shiftl (ip_hl buffer) 2.

(** [x < ((ipp->ip_hl << 2) + ICMP_MINLEN)] *)
Definition too_short (x : Z) (buffer : list byte) : bool :=
  x <? packetp buffer + ICMP_MINLEN.

(** The buffer once [packetp->icmp_cksum = 0] is done. *)
Definition zero_cksum (buffer : list byte) : list byte :=
  put buffer (packetp buffer + off_icmp_cksum) (bytes16 0).

(** [checksum != icmp_checksum ((uint16_t* )packetp, ICMP_MINLEN)],
    with [checksum] read before the field is zeroed. *)
Definition bad_checksum (buffer : list byte) : bool :=
  let checksum := get16 buffer (packetp buffer + off_icmp_cksum) in
  negb (checksum =?
          icmp_checksum (slice (zero_cksum buffer) (packetp buffer)
                           (Z.to_nat ICMP_MINLEN))).

(** [packetp->icmp_type] and [packetp->icmp_id] as the [switch] reads
    them, after the checksum field has been zeroed. *)
Definition icmp_type (buffer : list byte) : Z :=
  byte_val (get (zero_cksum buffer) (packetp buffer + off_icmp_type)).

Definition icmp_id (buffer : list byte) : Z :=
  get16 (zero_cksum buffer) (packetp buffer + off_icmp_id).

(** [packetp->icmp_id != getpid ()], a [uint16_t] against an [int]. *)
Definition bad_id (pid : Z) (buffer : list byte) : bool :=
  negb (icmp_id buffer =? pid).

(** The body of the wait loop from the size test on.  [Goes] is a
    [continue], with the buffer as the next iteration finds it. *)
Definition on_packet (pid timeout x : Z) (buffer : list byte)
    : flow (list byte) :=
  if too_short x buffer then
    if negb (timeout =? 0) then Goes buffer
    else Return PING_INVALID_SIZE
  else if bad_checksum buffer then
    if negb (timeout =? 0) then Goes (zero_cksum buffer)
    else Return PING_INVALID_CHECKSUM
  else
    let ty := icmp_type buffer in
    if (ty =? ICMP_ECHO) || (ty =? ICMP_ECHOREPLY) then
      if bad_id pid buffer then
        if negb (timeout =? 0) then Goes (zero_cksum buffer)
        else Return PING_INVALID_ID
      else Return PING_SUCCESS
    else if ty =? ICMP_DEST_UNREACH then Return PING_HOST_UNREACH
    else Return PING_INVALID_RESPONSE.

(** The three validations in the order the body makes them, and the
    value each failure returns when [timeout] is zero.  The identity
    test is made for the echo and echo-reply types only. *)
Inductive verdict : Type :=
| BadSize
| BadChecksum
| BadId
| Passed.

Definition validate (pid x : Z) (buffer : list byte) : verdict :=
  if too_short x buffer then BadSize
  else if bad_checksum buffer then BadChecksum
  else if ((icmp_type buffer =? ICMP_ECHO)
           || (icmp_type buffer =? ICMP_ECHOREPLY))
          && bad_id pid buffer then BadId
  else Passed.

Definition verdict_code (v : verdict) : Z :=
  match v with
  | BadSize => PING_INVALID_SIZE
  | BadChecksum => PING_INVALID_CHECKSUM
  | BadId => PING_INVALID_ID
  | Passed => PING_SUCCESS
  end.

(** The buffer a [continue] leaves: the checksum field has been zeroed
    unless the size test failed. *)
Definition buffer_after (x : Z) (buffer : list byte) : list byte :=
  if too_short x buffer then buffer else zero_cksum buffer.

(** Every one of the datagrams [ds], received in this order into
    [buffer], fails a validation. *)
Fixpoint all_rejected (pid : Z) (ds : list (list byte)) (buffer : list byte)
    : Prop :=
  match ds with
  | [] => True
  | d :: ds =>
      let x := u32 (recvfrom_ret (RecvfromData d)) in
      let received := recvfrom_store (RecvfromData d) buffer in
      validate pid x received <> Passed
      /\ all_rejected pid ds (buffer_after x received)
  end.

(** The wait loop.  Both [x <= 0] after [select] and [x < 0] after
    [recvfrom] are comparisons of the unsigned [x]. *)
Fixpoint wait_loop (pid timeout : Z) (selects : list select_result)
    (recvs : list recvfrom_result) (buffer : list byte) (errno : Z)
    : option (Z * Z) :=
  match selects with
  | [] => None
  | sel :: selects =>
      let x := u32 (select_ret sel) in
      let errno := errno_after (select_errno sel) errno in
      if x <=? 0 then
        if x =? 0 then Some (PING_TIMEOUT, errno)
        else Some (-1, errno)
      else
        match recvs with
        | [] => None
        | rcv :: recvs =>
            let x := u32 (recvfrom_ret rcv) in
            let buffer := recvfrom_store rcv buffer in
            let errno := errno_after (recvfrom_errno rcv) errno in
            if x <? 0 then Some (-1, errno)
            else
              match on_packet pid timeout x buffer with
              | Return rv => Some (rv, errno)
              | Goes buffer => wait_loop pid timeout selects recvs buffer errno
              end
        end
  end.

(** [icmp_ping_addrfd]: the value returned and [errno] at that point,
    or [None] while the environment's answers leave it in a loop.
    [pid] is what [getpid ()] returns. *)
Definition icmp_ping_addrfd (pid seq timeout : Z) (w : world)
    : option (Z * Z) :=
  match send_loop (sendto_answers w) (errno w) with
  | None => None
  | Some (Return rv, e) => Some (rv, e)
  | Some (Goes _, e) =>
      wait_loop pid timeout (select_answers w) (recvfrom_answers w)
        (echo_request pid seq) e
  end.

(** A datagram as [recvfrom] delivers it on the raw socket, for use as a
    concrete input: an IPv4 header of [hl] 32-bit words, zero but for its
    first byte, followed by an ICMP header of the given type, identifier
    and sequence number with its checksum filled in. *)
Definition icmp_datagram (hl ty id seq : Z) : list byte :=
  let ip := byte_of_Z (64 + hl) :: repeat x00 (Z.to_nat (4 * hl) - 1) in
  let icmp := [byte_of_Z ty; x00; x00; x00] ++ bytes16 id ++ bytes16 seq in
  ip ++ put icmp off_icmp_cksum (bytes16 (icmp_checksum icmp)).

(** ** icmp_ping_strerror *)

(** errno.h (Linux) *)
Definition ETIMEDOUT : Z := 110.
Definition EHOSTUNREACH : Z := 113.

(** [snprintf (buf, size, ...)] of an already formatted text. *)
Definition snprintf (size : nat) (text : string) : string :=
  substring 0 (size - 1) text.

(** The conversion [%d]. *)
Definition fmt_d (z : Z) : string := NilZero.string_of_int (Z.to_int z).

Section Strerror.

(** libc's [strerror]. *)
Variable strerror : Z -> string.

(** The [switch]: the text returned from inside it, or the contents
    of the static [buf] at the [break] that leaves it. *)
Definition strerror_switch (errno rv : Z) (buf : string)
    : string + string :=
  if rv =? PING_ERRNO then inl (strerror errno)
  else if rv =? PING_SUCCESS then inl (strerror 0)
  else if rv =? PING_TIMEOUT then inl (strerror ETIMEDOUT)
  else if rv =? PING_HOST_UNREACH then inl (strerror EHOSTUNREACH)
  else if rv =? PING_HOST_NOT_FOUND then
    inl (snprintf 80 "Host not found")
  else if rv =? PING_INVALID_CHECKSUM then
    inr (snprintf 80 "Invalid checksum")
  else if rv =? PING_INVALID_SIZE then
    inl (snprintf 80 "Invalid size of reply packet")
  else if rv =? PING_INVALID_RESPONSE then
    inl (snprintf 80 "Invalid response")
  else if rv =? PING_INVALID_ID then
    inl (snprintf 80 "Invalid ID in response")
  else inr buf.

(** [buf] is the static buffer as the previous call left it. *)
Definition icmp_ping_strerror (errno rv : Z) (buf : string) : string :=
  match strerror_switch errno rv buf with
  | inl text => text
  | inr _ => snprintf 80 ("Unkown (" ++ fmt_d rv ++ ")")
  end.

End Strerror.

(** ** icmp_socket *)

(** What [socket (AF_INET, SOCK_RAW, IPPROTO_ICMP)] answers: -1 with
    [errno] set, or a descriptor. *)
Inductive socket_result : Type :=
| SocketError (e : Z)
| SocketFd (fd : nat).

Definition icmp_socket (r : socket_result) : Z :=
  match r with SocketError _ => -1 | SocketFd fd => Z.of_nat fd end.

Definition socket_errno (r : socket_result) : option Z :=
  match r with SocketError e => Some e | SocketFd _ => None end.

(** The world as [icmp_ping_addrfd] finds it once [errno] has become
    [e]. *)
Definition with_errno (e : Z) (w : world) : world :=
  mk_world e (sendto_answers w) (select_answers w) (recvfrom_answers w).

Section Host.

Variable inet_pton : string -> option in_addr.

(** ** icmp_ping_hostfd *)

(** [answers] are the resolver's; the address found plays no part in
    what the environment [w] answers.  [resolver_errno] is the [errno]
    that the library calls of [icmp_ping_getaddr] leave ([gethostbyname]
    stores to it when it fails with [NETDB_INTERNAL], and may on any
    other answer), or [None] where they leave it alone. *)
Definition icmp_ping_hostfd (pid : Z) (hostname : string) (seq timeout : Z)
    (answers : list hostent_result) (resolver_errno : option Z) (w : world)
    : option (Z * Z) :=
  match icmp_ping_getaddr inet_pton hostname answers with
  | None => None
  | Some r =>
      let rv := ga_ret r in
      let e := errno_after resolver_errno (errno w) in
      if negb (rv =? 0) then Some (rv, e)
      else icmp_ping_addrfd pid seq timeout (with_errno e w)
  end.

(** ** icmp_ping_host *)

(** [rv], [sock] and [esv] are [uint32_t] here.  [close_errno] is the
    [errno] that a failing [close] sets. *)
Definition icmp_ping_host (pid : Z) (hostname : string) (seq timeout : Z)
    (sock : socket_result) (answers : list hostent_result)
    (resolver_errno close_errno : option Z) (w : world) : option (Z * Z) :=
  let e := errno_after (socket_errno sock) (errno w) in
  let sock := u32 (icmp_socket sock) in
  if sock =? u32 (-1) then Some (-1, e)
  else
    match icmp_ping_hostfd pid hostname seq timeout answers resolver_errno
            (with_errno e w) with
    | None => None
    | Some (rv, e) =>
        let rv := u32 rv in
        let esv := u32 e in
        let e := errno_after close_errno e in
        let e := s32 esv in
        Some (s32 rv, e)
    end.

End Host.

(** ** icmp_ping_addr *)

(** [sock], [rv] and [esv] are [int] here. *)
Definition icmp_ping_addr (pid seq timeout : Z) (sock : socket_result)
    (close_errno : option Z) (w : world) : option (Z * Z) :=
  let e := errno_after (socket_errno sock) (errno w) in
  let sock := s32 (icmp_socket sock) in
  if sock <? 0 then Some (-1, e)
  else
    match icmp_ping_addrfd pid seq timeout (with_errno e w) with
    | None => None
    | Some (rv, e) =>
        let esv := e in
        let e := errno_after close_errno e in
        let e := esv in
        Some (rv, e)
    end.

End Ping.

(* ================================================================== *)
(** * ping.c: the stand-alone program *)
(* ================================================================== *)

Module PingMain.

Import Ping.

(** [time_t] and [suseconds_t] are [long]. *)
Definition slong : Z -> Z := wraps 64.

Record timeval : Type := mk_timeval {
  tv_sec : Z;
  tv_usec : Z
}.

(** ** __diff_tv *)

Definition __diff_tv (start end_ : timeval) : timeval :=
  let sec := slong (tv_sec end_ - tv_sec start) in
  let usec := slong (tv_usec end_ - tv_usec start) in
  if usec <? 0 then mk_timeval (slong (sec - 1)) (slong (usec + 1000000))
  else mk_timeval sec usec.

(** ** main *)

(** The lines the program prints, with the arguments of the format. *)
Inductive out_msg : Type :=
| OutUsage (name : string)
| OutPinging (host : string)
| OutPerror
| OutReply (received sec usec : Z)
| OutTimedOut (host : string)
| OutUnreachable (host : string)
| OutNotFound (host : string)
| OutInvalidChecksum
| OutInvalidSize
| OutInvalidResponse
| OutInvalidId
| OutSummary (sent received : Z).

(** One turn of the loop as the environment decides it: the clock before
    and after, and what [icmp_ping_host] returns. *)
Record attempt : Type := mk_attempt {
  at_begin : timeval;
  at_rv : Z;
  at_end : timeval
}.

(** The [while (!signaled)] loop and what follows it.  The signal
    arrives when [attempts] have been made.  The result is the exit
    status and the output. *)
Fixpoint ping_loop (host : string) (attempts : list attempt)
    (sent received : Z) (out : list out_msg) : Z * list out_msg :=
  match attempts with
  | [] =>
      let out := out ++ [OutSummary sent received] in
      if received <? sent then (1, out) else (0, out)
  | a :: attempts =>
      let rv := at_rv a in
      let sent := s32 (sent + 1) in
      let delta := __diff_tv (at_begin a) (at_end a) in
      if rv =? PING_ERRNO then (1, out ++ [OutPerror])
      else if rv =? PING_SUCCESS then
        let received := s32 (received + 1) in
        ping_loop host attempts sent received
          (out ++ [OutReply received (s32 (tv_sec delta))
                     (s32 (tv_usec delta))])
      else if rv =? PING_TIMEOUT then
        ping_loop host attempts sent received (out ++ [OutTimedOut host])
      else if rv =? PING_HOST_UNREACH then
        ping_loop host attempts sent received (out ++ [OutUnreachable host])
      else if rv =? PING_HOST_NOT_FOUND then
        (1, out ++ [OutNotFound host])
      else if rv =? PING_INVALID_CHECKSUM then
        ping_loop host attempts sent received (out ++ [OutInvalidChecksum])
      else if rv =? PING_INVALID_SIZE then
        ping_loop host attempts sent received (out ++ [OutInvalidSize])
      else if rv =? PING_INVALID_RESPONSE then
        ping_loop host attempts sent received (out ++ [OutInvalidResponse])
      else if rv =? PING_INVALID_ID then
        ping_loop host attempts sent received (out ++ [OutInvalidId])
      else
        ping_loop host attempts sent received out
  end.

(** [main] on the argument vector [argv].  The timeout read from
    [argv[2]] only reaches [icmp_ping_host], whose results are given. *)
Definition main (argv : list string) (attempts : list attempt)
    : Z * list out_msg :=
  match argv with
  | [] => (2, [OutUsage EmptyString])
  | [name] => (2, [OutUsage name])
  | _ :: host :: _ => ping_loop host attempts 0 0 [OutPinging host]
  end.

End PingMain.

(* ================================================================== *)
(** * cluquorumd_net.c *)
(* ================================================================== *)

Module NetTie.

Import Ping.

Definition EBADF : Z := 9.
Definition EINVAL : Z := 22.

(** The file's static variables, all guarded by [net_lock].  [tb_ip] is
    [None] for [NULL]. *)
Record globals : Type := mk_globals {
  ping_interval : Z;
  declare_online : Z;
  declare_offline : Z;
  net_thread : Z;
  net_vote_alive : Z;
  tb_ip : option string;
  totem_timeout : Z
}.

Definition initial_globals : globals :=
  mk_globals 2000000 1 1 0 0 None 0.

(** What [LOG] puts out, with the arguments of the format. *)
Inductive log_msg : Type :=
| LogTooFast
| LogInterval (interval up_time down_time : Z)
| LogMissedPing (misses _offline ping_ret errno : Z)
| LogOffline (target : string)
| LogOnline (target : string).

(** [LOG] is [syslog] followed by [printf].  Either library call may
    store to [errno], also when it succeeds ([printf] on a closed
    standard output leaves [EBADF]): the value each of them leaves, or
    [None] where it leaves [errno] alone. *)
Record log_effect : Type := mk_log_effect {
  syslog_errno : option Z;
  printf_errno : option Z
}.

(** [errno] after one [LOG]. *)
Definition LOG (fx : log_effect) (errno : Z) : Z :=
  errno_after (printf_errno fx) (errno_after (syslog_errno fx) errno).

(** A [LOG] that does not touch [errno]. *)
Definition quiet_log : log_effect := mk_log_effect None None.

(** ** net_cleanup *)

Definition net_cleanup (g : globals) : globals :=
  mk_globals (ping_interval g) (declare_online g) (declare_offline g)
    0 0 None (totem_timeout g).

(** ** get_interval_tko *)

(** The value returned, the globals and the log; [None] when a division
    by zero stops the process.  [/] on [int] truncates ([Z.quot]);
    signed arithmetic that leaves the range of [int] is wrapped.  Each
    path that returns goes through [LOG] once: what that does to [errno]
    is accounted for in the caller, [net_tiebreaker_init]. *)
Definition get_interval_tko (fo_time _interval : Z) (g : globals)
    : option (Z * globals * list log_msg) :=
  if fo_time <? 2000000 then Some (-1, g, [LogTooFast])
  else if _interval =? 0 then None
  else
    let _tko := s32 (Z.quot fo_time _interval) in
    let up_time := s32 (fo_time + s32 (3 * _interval)) in
    let down_time :=
      s32 (_interval
           * Z.quot (s32 (Z.land _tko (Z.lnot 1) - 1)) 2) in
    let _interval := Z.quot (s32 (Z.shiftl _interval 2)) 3 in
    if _interval =? 0 then None
    else
      let up_time := s32 (Z.quot up_time _interval) in
      let down_time := s32 (Z.quot down_time _interval) in
      Some (0,
            mk_globals _interval up_time down_time (net_thread g)
              (net_vote_alive g) (tb_ip g) (totem_timeout g),
            [LogInterval _interval up_time down_time]).

(** ** net_tiebreaker_init *)

Record init_result : Type := mk_init_result {
  init_ret : option Z;
  init_errno : Z;
  init_globals : globals;
  init_log : list log_msg
}.

(** [target] is [None] for a [NULL] pointer.  The successful path ends
    in a [return] without a value: [init_ret] is [None] there.  [fx] is
    what the [LOG] inside [get_interval_tko] does to [errno]: it runs
    after [errno = EINVAL] and before either [return] that follows. *)
Definition net_tiebreaker_init (fx : log_effect) (target : option string)
    (token interval : Z) (g : globals) : option init_result :=
  let errno := EINVAL in
  match target with
  | None => Some (mk_init_result (Some (-1)) errno g [])
  | Some target =>
      match get_interval_tko token interval g with
      | None => None
      | Some (rv, g, log) =>
          let errno := LOG fx errno in
          if rv <? 0 then Some (mk_init_result (Some (-1)) errno g log)
          else
            let g :=
              mk_globals (ping_interval g) (declare_online g)
                (declare_offline g) (net_thread g) (net_vote_alive g)
                (Some target) (totem_timeout g) in
            Some (mk_init_result None 0 g log)
      end
  end.

(** ** net_tiebreaker *)

Definition net_tiebreaker (g : globals) : Z := net_vote_alive g.

(** ** net_quorum_thread *)

(** The locals of the thread that live across iterations ([char]). *)
Record locals : Type := mk_locals {
  hits : Z;
  misses : Z
}.

Definition initial_locals : locals := mk_locals 0 0.

(** What happens in one iteration outside the thread's control: the
    value [icmp_ping_host] returns and the [errno] it leaves, and the
    arguments of a [net_tiebreaker_init] that another thread completes
    while the ping is in flight (the lock is not held then). *)
Record cycle_input : Type := mk_cycle_input {
  ping_ret : Z;
  ping_errno : Z;
  during_ping : option (option string * Z * Z)
}.

(** Only the globals of the other thread's call reach this one:
    [errno] is the caller's own, and what [LOG] does to it there plays no
    part in them. *)
Definition interfere (call : option (option string * Z * Z)) (g : globals)
    : option globals :=
  match call with
  | None => Some g
  | Some (target, token, interval) =>
      option_map init_globals
        (net_tiebreaker_init quiet_log target token interval g)
  end.

(** How one iteration of [while (1)] ends. *)
Inductive cycle_result : Type :=
| Exited (g : globals)
| Restarted (g : globals) (l : locals)
| Voted (g : globals) (l : locals) (log : list log_msg) (usleep : Z).

Definition set_vote (g : globals) (alive : Z) : globals :=
  mk_globals (ping_interval g) (declare_online g) (declare_offline g)
    (net_thread g) alive (tb_ip g) (totem_timeout g).

(** [sizeof (target)] *)
Definition target_size : nat := 64.

(** One iteration.  [None] where the C has no defined behaviour: a
    [tb_ip] of 64 characters or more, which [strncpy] copies without
    its terminator, and a [tb_ip] that is [NULL] at the [strcmp]; and
    where a concurrent [net_tiebreaker_init] divides by zero. *)
Definition cycle (inp : cycle_input) (g : globals) (l : locals)
    : option cycle_result :=
  let was_alive := s8 (net_vote_alive g) in
  match tb_ip g with
  | None => Some (Exited (net_cleanup g))
  | Some ip =>
      if (target_size <=? String.length ip)%nat then None
      else
        let target := ip in
        let interval := ping_interval g in
        let _online := s8 (declare_online g) in
        let _offline := s8 (declare_offline g) in
        let '(alive, hits, misses) :=
          if ping_ret inp =? 0 then (1, hits l, 0)
          else (0, 0, misses l) in
        match interfere (during_ping inp) g with
        | None => None
        | Some g =>
            match tb_ip g with
            | None => None
            | Some ip =>
                if negb (String.eqb ip target) then
                  Some (Restarted g (mk_locals hits misses))
                else if negb (was_alive =? 0) && (alive =? 0) then
                  let misses := s8 (misses + 1) in
                  if misses <? _offline then
                    Some (Voted (set_vote g was_alive)
                            (mk_locals hits misses)
                            [LogMissedPing misses _offline (ping_ret inp)
                               (ping_errno inp)]
                            interval)
                  else
                    Some (Voted (set_vote g alive) (mk_locals hits misses)
                            [LogOffline target] interval)
                else if (was_alive =? 0) && negb (alive =? 0) then
                  let hits := s8 (hits + 1) in
                  if hits <? _online then
                    Some (Voted (set_vote g was_alive) (mk_locals hits 0)
                            [] interval)
                  else
                    Some (Voted (set_vote g alive) (mk_locals hits misses)
                            [LogOnline target] interval)
                else
                  Some (Voted (set_vote g alive) (mk_locals hits misses)
                          [] interval)
            end
        end
  end.

(** The state of a run of the thread: the globals, the locals, the
    values stored to [net_vote_alive] so far (one per iteration that
    reaches the store), the log, and whether the loop has been left. *)
Record run : Type := mk_run {
  run_globals : globals;
  run_locals : locals;
  run_votes : list Z;
  run_log : list log_msg;
  run_exited : bool
}.

(** The loop, for as many iterations as there are inputs. *)
Fixpoint thread_loop (inputs : list cycle_input) (r : run) : option run :=
  match inputs with
  | [] => Some r
  | inp :: inputs =>
      match cycle inp (run_globals r) (run_locals r) with
      | None => None
      | Some (Exited g) =>
          Some (mk_run g (run_locals r) (run_votes r) (run_log r) true)
      | Some (Restarted g l) =>
          thread_loop inputs
            (mk_run g l (run_votes r) (run_log r) false)
      | Some (Voted g l log _) =>
          thread_loop inputs
            (mk_run g l (run_votes r ++ [net_vote_alive g])
               (run_log r ++ log) false)
      end
  end.

(** [net_quorum_thread], started on the globals [g]. *)
Definition net_quorum_thread (inputs : list cycle_input) (g : globals)
    : option run :=
  thread_loop inputs (mk_run g initial_locals [] [] false).

(** Iterations in which no other thread reconfigures and the ping
    succeeds, or fails; and pairs of iterations that differ at most in
    which failure the ping reports and in the [errno] it leaves. *)
Definition quiet_success (inp : cycle_input) : Prop :=
  ping_ret inp = 0 /\ during_ping inp = None.

Definition quiet_failure (inp : cycle_input) : Prop :=
  ping_ret inp <> 0 /\ during_ping inp = None.

Definition same_outcome (a b : cycle_input) : Prop :=
  (ping_ret a = 0 <-> ping_ret b = 0) /\ during_ping a = during_ping b.

(** ** net_cancel_quorum_thread *)

(** The value returned and the globals.  The cancelled thread makes no
    further step. *)
Definition net_cancel_quorum_thread (g : globals) : Z * globals :=
  if net_thread g =? 0 then (0, g)
  else (0, net_cleanup g).

End NetTie.

(* ================================================================== *)
(** * qnet.c *)
(* ================================================================== *)

Module Qnet.

(** ** node_count *)

(** What [cman_get_nodes] answers: a negative value, or the number of
    nodes it stored with the [cn_member] field of every entry of the
    array after the call, the entries it did not store included. *)
Inductive get_nodes_result : Type :=
| GetNodesError
| GetNodes (retnodes : Z) (cn_member : list Z).

(** The [for] loop.  [array] holds the entries from index [x] on; a read
    past the last one has no defined result. *)
Fixpoint node_count_loop (array : list Z) (x retnodes : Z) : option Z :=
  if x <? retnodes then
    match array with
    | [] => None
    | cn_member :: array =>
        node_count_loop array (s32 (x + 1))
          (if negb (cn_member =? 0) then s32 (retnodes + 1) else retnodes)
    end
  else Some retnodes.

(** [count] is what [cman_get_node_count] returns, [malloc_ok] whether
    [malloc] succeeds.  The array has [count] entries. *)
Definition node_count (count : Z) (malloc_ok : bool)
    (nodes : get_nodes_result) : option Z :=
  let x := count in
  if x <=? 0 then Some 0
  else if negb malloc_ok then Some 0
  else
    match nodes with
    | GetNodesError => Some 0
    | GetNodes retnodes cn_member =>
        node_count_loop (firstn (Z.to_nat x) cn_member) 0 retnodes
    end.

End Qnet.

(* ================================================================== *)
(** * Facts about the integer and byte conversions *)
(* ================================================================== *)

Module CIntFacts.

Lemma u32_range z : 0 <= u32 z < 2 ^ 32.
Proof. unfold u32, wrapu. apply Z.mod_pos_bound. lia. Qed.

Lemma u16_range z : 0 <= u16 z < 2 ^ 16.
Proof. unfold u16, wrapu. apply Z.mod_pos_bound. lia. Qed.

Lemma u32_small z : 0 <= z < 2 ^ 32 -> u32 z = z.
Proof. intros H. unfold u32, wrapu. apply Z.mod_small. exact H. Qed.

Lemma u16_small z : 0 <= z < 2 ^ 16 -> u16 z = z.
Proof. intros H. unfold u16, wrapu. apply Z.mod_small. exact H. Qed.

Lemma s32_in_int z : in_int z -> s32 z = z.
Proof.
  unfold in_int, INT_MIN, INT_MAX, s32, wraps. intros H.
  rewrite Z.mod_small; lia.
Qed.

Lemma s8_small z : -128 <= z <= 127 -> s8 z = z.
Proof.
  unfold s8, wraps. intros H. rewrite Z.mod_small; lia.
Qed.

(** An unsigned value is never below zero: the comparison [x < 0] on a
    [uint32_t] is constantly false. *)
Lemma u32_not_neg z : (u32 z <? 0) = false.
Proof. apply Z.ltb_ge. apply u32_range. Qed.

Lemma byte_val_range b : 0 <= byte_val b < 256.
Proof.
  unfold byte_val. pose proof (Byte.to_N_bounded b). lia.
Qed.

Lemma load16_range b0 b1 : 0 <= load16 b0 b1 < 2 ^ 16.
Proof.
  unfold load16.
  pose proof (byte_val_range b0). pose proof (byte_val_range b1).
  change (2 ^ 16) with 65536. lia.
Qed.

End CIntFacts.
Import CIntFacts.

(* ================================================================== *)
(** * The checksum *)
(* ================================================================== *)

Module ChecksumFacts.

Import Ping.

(** Lists two elements at a time, the way the summation loop reads. *)
Lemma list_pair_ind (A : Type) (P : list A -> Prop) :
  P [] ->
  (forall a, P [a]) ->
  (forall a b l, P l -> P (a :: b :: l)) ->
  forall l, P l.
Proof.
  intros Hnil Hone Hstep.
  assert (H : forall l, P l /\ forall a, P (a :: l)).
  { induction l as [|b l [IH1 IH2]].
    - split; [exact Hnil | exact Hone].
    - split; [apply IH2 | intros a; apply Hstep; exact IH1]. }
  intros l. apply H.
Qed.

(** After an even number of bytes the loop is where it would be had it
    started there with the sum reached so far. *)
Lemma checksum_loop_app (pre tail : list byte) :
  Nat.even (List.length pre) = true ->
  forall sum,
    checksum_loop (pre ++ tail) sum
    = checksum_loop tail (checksum_loop pre sum).
Proof.
  induction pre as [| a | a b pre IH] using list_pair_ind; intros Hev sum.
  - reflexivity.
  - discriminate Hev.
  - cbn [app checksum_loop]. apply IH. exact Hev.
Qed.

Lemma byte_val_x00 : byte_val x00 = 0.
Proof. reflexivity. Qed.

(** A last byte below 0x80 is added as it is, which is also what the
    word made of it and a zero byte is worth. *)
Lemma checksum_loop_last_low (b : byte) (sum : Z) :
  byte_val b < 128 ->
  checksum_loop [b] sum = checksum_loop [b; x00] sum.
Proof.
  intros Hb. pose proof (byte_val_range b) as Hr.
  cbn [checksum_loop]. unfold char_val, load16.
  rewrite s8_small by lia. rewrite byte_val_x00.
  f_equal. lia.
Qed.

(** Where the padding rule does hold: odd-length buffers whose last
    byte is below 0x80. *)
Lemma icmp_checksum_pad_low (pre : list byte) (b : byte) :
  Nat.even (List.length pre) = true ->
  byte_val b < 128 ->
  icmp_checksum (pre ++ [b]) = icmp_checksum ((pre ++ [b]) ++ [x00]).
Proof.
  intros Hev Hb. unfold icmp_checksum.
  rewrite <- app_assoc. cbn [app].
  rewrite !checksum_loop_app by exact Hev.
  rewrite (checksum_loop_last_low b _ Hb). reflexivity.
Qed.

(** C7 (code defect).  The buffer of the single byte 0x80 and the same
    buffer with a zero byte appended have different checksums, 0x007f
    and 0xff7f: the last byte of an odd-length buffer is read through a
    signed [char] and sign-extended, so from 0x80 on it does not
    contribute as a word padded with zero. *)
Theorem icmp_checksum_odd_sign_extends :
  icmp_checksum [x80] = 127
  /\ icmp_checksum ([x80] ++ [x00]) = 65407
  /\ icmp_checksum [x80] <> icmp_checksum ([x80] ++ [x00]).
Proof.
  split; [reflexivity | split; [reflexivity | ]].
  intros H. vm_compute in H. discriminate H.
Qed.

End ChecksumFacts.

(* ================================================================== *)
(** * The ping engine *)
(* ================================================================== *)

Module PingFacts.

Import Ping.

(** ** The send loop *)

(** A short send goes round the loop: the next [sendto] decides. *)
Lemma send_loop_short (n : nat) (rest : list sendto_result) (e : Z) :
  Z.of_nat n < packetlen ->
  send_loop (SendtoSent n :: rest) e = send_loop rest e.
Proof.
  intros Hn. cbn [send_loop sendto_ret sendto_errno errno_after].
  assert (Hp : packetlen = 16) by reflexivity.
  rewrite u32_small by (change (2 ^ 32) with 4294967296; lia).
  destruct (Z.ltb_spec (Z.of_nat n) packetlen) as [_|Hge]; [|lia].
  destruct (Z.ltb_spec (Z.of_nat n) 0) as [Hneg|_]; [lia|reflexivity].
Qed.

(** A failed send leaves the loop by its test, not by [return -1]:
    [(uint32_t)-1] is not below [packetlen]. *)
Lemma send_loop_error (err : Z) (rest : list sendto_result) (e : Z) :
  send_loop (SendtoError err :: rest) e = Some (Goes tt, err).
Proof. reflexivity. Qed.

Lemma send_loop_never_returns (answers : list sendto_result) :
  forall e rv e', send_loop answers e <> Some (Return rv, e').
Proof.
  induction answers as [|r rest IH]; intros e rv e'; cbn [send_loop].
  - discriminate.
  - rewrite u32_not_neg.
    destruct (u32 (sendto_ret r) <? packetlen); [apply IH | discriminate].
Qed.

(** ** The receive buffer *)

(** [buffer] keeps its 256 bytes through the function, and the fields the
    [switch] reads are the ones received. *)

Lemma put_length (buf : list byte) (off : Z) (data : list byte) :
  0 <= off ->
  (Z.to_nat off + List.length data <= List.length buf)%nat ->
  List.length (put buf off data) = List.length buf.
Proof.
  intros Hoff Hfit. unfold put.
  rewrite !length_app, length_firstn, length_skipn. lia.
Qed.

Lemma get_put_other (buf : list byte) (off : Z) (data : list byte) (i : Z) :
  0 <= off -> 0 <= i ->
  (Z.to_nat off + List.length data <= List.length buf)%nat ->
  i < off \/ off + Z.of_nat (List.length data) <= i ->
  get (put buf off data) i = get buf i.
Proof.
  intros Hoff Hi Hfit Hout. unfold get, put.
  assert (Hf : List.length (firstn (Z.to_nat off) buf) = Z.to_nat off)
    by (rewrite length_firstn; lia).
  destruct Hout as [Hlt|Hge].
  - rewrite app_nth1 by lia.
    rewrite nth_firstn.
    destruct (Nat.ltb_spec (Z.to_nat i) (Z.to_nat off)); [reflexivity|lia].
  - rewrite app_nth2 by lia. rewrite app_nth2 by lia.
    rewrite nth_skipn. f_equal. lia.
Qed.

Lemma ip_hl_range buffer : 0 <= ip_hl buffer <= 15.
Proof.
  unfold ip_hl. pose proof (byte_val_range (get buffer 0)) as Hb.
  change 15 with (Z.ones 4). rewrite Z.land_ones by lia.
  pose proof (Z.mod_pos_bound (byte_val (get buffer 0)) (2 ^ 4) ltac:(lia)).
  change (Z.ones 4) with 15. change (2 ^ 4) with 16 in *. lia.
Qed.

Lemma packetp_range buffer : 0 <= packetp buffer <= 60.
Proof.
  unfold packetp. rewrite Z.shiftl_mul_pow2 by lia.
  pose proof (ip_hl_range buffer). change (2 ^ 2) with 4. lia.
Qed.

(** Zeroing the checksum field leaves the type and identifier fields of a
    full-size buffer as they were received. *)
Lemma icmp_fields_received (buffer : list byte) :
  List.length buffer = 256%nat ->
  icmp_type buffer = byte_val (get buffer (packetp buffer + off_icmp_type))
  /\ icmp_id buffer = get16 buffer (packetp buffer + off_icmp_id).
Proof.
  intros Hlen. pose proof (packetp_range buffer) as Hp.
  unfold icmp_type, icmp_id, get16, zero_cksum,
    off_icmp_type, off_icmp_id, off_icmp_cksum.
  rewrite !get_put_other; cbn [List.length bytes16]; lia.
Qed.

Lemma recvfrom_store_length rcv (buf : list byte) :
  List.length buf = 256%nat ->
  List.length (recvfrom_store rcv buf) = 256%nat.
Proof.
  intros Hlen. destruct rcv as [err|d]; cbn [recvfrom_store]; [exact Hlen|].
  pose proof (firstn_le_length 256 d).
  rewrite put_length; [exact Hlen | lia |].
  rewrite Hlen. change (Z.to_nat 0) with 0%nat. lia.
Qed.

Lemma zero_cksum_length (buffer : list byte) :
  List.length buffer = 256%nat ->
  List.length (zero_cksum buffer) = 256%nat.
Proof.
  intros Hlen. pose proof (packetp_range buffer).
  unfold zero_cksum, off_icmp_cksum.
  rewrite put_length; [exact Hlen | lia | cbn [List.length bytes16]; lia].
Qed.

Lemma buffer_after_length x (buffer : list byte) :
  List.length buffer = 256%nat ->
  List.length (buffer_after x buffer) = 256%nat.
Proof.
  intros Hlen. unfold buffer_after.
  destruct (too_short x buffer); [exact Hlen | apply zero_cksum_length, Hlen].
Qed.

Lemma echo_request_length pid seq :
  List.length (echo_request pid seq) = 256%nat.
Proof.
  unfold echo_request, off_icmp_type, off_icmp_seq, off_icmp_id,
    off_icmp_cksum.
  set (b0 := repeat x00 256).
  assert (H0 : List.length b0 = 256%nat) by apply repeat_length.
  set (b1 := put b0 0 [byte_of_Z ICMP_ECHO]).
  assert (H1 : List.length b1 = 256%nat)
    by (subst b1; rewrite put_length; cbn [List.length]; lia).
  set (b2 := put b1 6 (bytes16 seq)).
  assert (H2 : List.length b2 = 256%nat)
    by (subst b2; rewrite put_length; cbn [List.length bytes16]; lia).
  set (b3 := put b2 4 (bytes16 pid)).
  assert (H3 : List.length b3 = 256%nat)
    by (subst b3; rewrite put_length; cbn [List.length bytes16]; lia).
  rewrite put_length; cbn [List.length bytes16]; lia.
Qed.

(** ** The wait loop *)

Lemma wait_loop_timeout pid timeout sels rcvs buf e :
  wait_loop pid timeout (SelectTimeout :: sels) rcvs buf e
  = Some (PING_TIMEOUT, e).
Proof. reflexivity. Qed.

(** Once [select] reports the socket readable, the iteration is
    [recvfrom] followed by the body from the size test on. *)
Lemma wait_loop_ready pid timeout sels rcv rcvs buf e :
  wait_loop pid timeout (SelectReady :: sels) (rcv :: rcvs) buf e
  = match on_packet pid timeout (u32 (recvfrom_ret rcv))
            (recvfrom_store rcv buf) with
    | Return rv => Some (rv, errno_after (recvfrom_errno rcv) e)
    | Goes b =>
        wait_loop pid timeout sels rcvs b
          (errno_after (recvfrom_errno rcv) e)
    end.
Proof.
  cbn [wait_loop select_ret select_errno errno_after].
  change (u32 1 <=? 0) with false. cbv iota.
  rewrite u32_not_neg. reflexivity.
Qed.

(** The body on a packet that fails a validation. *)
Lemma on_packet_rejected pid timeout x buffer :
  validate pid x buffer <> Passed ->
  on_packet pid timeout x buffer
  = if timeout =? 0 then Return (verdict_code (validate pid x buffer))
    else Goes (buffer_after x buffer).
Proof.
  unfold validate, on_packet, buffer_after. intros Hv.
  destruct (too_short x buffer).
  - destruct (timeout =? 0); reflexivity.
  - destruct (bad_checksum buffer).
    + destruct (timeout =? 0); reflexivity.
    + destruct ((icmp_type buffer =? ICMP_ECHO)
                || (icmp_type buffer =? ICMP_ECHOREPLY)); cbn [andb] in *.
      * destruct (bad_id pid buffer); [|contradiction].
        destruct (timeout =? 0); reflexivity.
      * contradiction.
Qed.

(** The body on a packet that passes the size and checksum tests and
    is neither an echo nor an echo reply. *)
Lemma on_packet_other_type pid timeout x buffer :
  too_short x buffer = false ->
  bad_checksum buffer = false ->
  icmp_type buffer <> ICMP_ECHO ->
  icmp_type buffer <> ICMP_ECHOREPLY ->
  on_packet pid timeout x buffer
  = Return (if icmp_type buffer =? ICMP_DEST_UNREACH
            then PING_HOST_UNREACH else PING_INVALID_RESPONSE).
Proof.
  intros Hs Hc He Hr. unfold on_packet. rewrite Hs, Hc.
  apply Z.eqb_neq in He, Hr. rewrite He, Hr. cbn [orb].
  destruct (icmp_type buffer =? ICMP_DEST_UNREACH); reflexivity.
Qed.

(** ** The function *)

Lemma icmp_ping_addrfd_sent pid seq timeout w e :
  send_loop (sendto_answers w) (errno w) = Some (Goes tt, e) ->
  icmp_ping_addrfd pid seq timeout w
  = wait_loop pid timeout (select_answers w) (recvfrom_answers w)
      (echo_request pid seq) e.
Proof. intros H. unfold icmp_ping_addrfd. rewrite H. reflexivity. Qed.

Lemma wait_loop_never_errno pid timeout (sels : list select_result) :
  forall rcvs buf e rv e',
    wait_loop pid timeout sels rcvs buf e = Some (rv, e') -> rv <> -1.
Proof.
  induction sels as [|sel sels IH]; intros rcvs buf e rv e';
    cbn [wait_loop]; [discriminate|].
  destruct (Z.leb_spec (u32 (select_ret sel)) 0) as [Hle|_].
  - pose proof (u32_range (select_ret sel)) as Hr.
    destruct (Z.eqb_spec (u32 (select_ret sel)) 0) as [_|Hne]; [|lia].
    intros H. injection H as <- _. discriminate.
  - destruct rcvs as [|rcv rcvs]; [discriminate|].
    rewrite u32_not_neg.
    destruct (on_packet pid timeout (u32 (recvfrom_ret rcv))
                (recvfrom_store rcv buf)) as [rv0|b] eqn:Hp.
    + intros H. injection H as <- _.
      unfold on_packet in Hp.
      repeat match type of Hp with
             | (if ?c then _ else _) = _ => destruct c
             end; try discriminate Hp; injection Hp as <-; discriminate.
    + apply IH.
Qed.

(** No answer of the environment makes the function return -1: none of
    its three tests for a failed call can succeed on the unsigned [x]. *)
Lemma icmp_ping_addrfd_never_errno pid seq timeout w rv e :
  icmp_ping_addrfd pid seq timeout w = Some (rv, e) -> rv <> PING_ERRNO.
Proof.
  unfold icmp_ping_addrfd.
  destruct (send_loop (sendto_answers w) (errno w)) as [[[rv0|u] e0]|] eqn:Hs.
  - exfalso. exact (send_loop_never_returns _ _ _ _ Hs).
  - apply wait_loop_never_errno.
  - discriminate.
Qed.

(** C3 (code defect).  A failed [sendto], [select] or [recvfrom] does not
    make the function return -1.  With [sendto] failing (errno 1) and
    nothing arriving, the result is [PING_TIMEOUT]; with [select] failing
    (errno 4) the code goes on to [recvfrom]; with [recvfrom] failing
    (errno 11) it validates what the buffer held before, the request
    itself, and returns [PING_INVALID_CHECKSUM]. *)
Theorem icmp_ping_addrfd_ignores_io_failure :
  icmp_ping_addrfd 4660 0 1 (mk_world 0 [SendtoError 1] [SelectTimeout] [])
  = Some (PING_TIMEOUT, 1)
  /\ icmp_ping_addrfd 4660 0 0
       (mk_world 0 [SendtoSent 16] [SelectError 4]
          [RecvfromData (icmp_datagram 5 ICMP_ECHOREPLY 4660 0)])
     = Some (PING_SUCCESS, 4)
  /\ icmp_ping_addrfd 4660 0 0
       (mk_world 0 [SendtoSent 16] [SelectReady] [RecvfromError 11])
     = Some (PING_INVALID_CHECKSUM, 11).
Proof. repeat split; vm_compute; reflexivity. Qed.

(** C6.  In the wait loop, whatever the buffer holds from earlier
    iterations: when [select] reports that the time is up the function
    returns [PING_TIMEOUT]; and when a received packet fails the size,
    checksum or identity validation, the function returns the matching
    code at once if [timeout] is zero and otherwise goes round the loop,
    so that the next [select] and [recvfrom] decide. *)
Theorem wait_loop_validation_failure
    (pid timeout : Z) (sels : list select_result)
    (rcvs : list recvfrom_result) (buf datagram : list byte) (e : Z) :
  let x := u32 (recvfrom_ret (RecvfromData datagram)) in
  let buffer := recvfrom_store (RecvfromData datagram) buf in
  validate pid x buffer <> Passed ->
  wait_loop pid timeout (SelectTimeout :: sels) rcvs buf e
  = Some (PING_TIMEOUT, e)
  /\ wait_loop pid timeout (SelectReady :: sels)
       (RecvfromData datagram :: rcvs) buf e
     = if timeout =? 0
       then Some (verdict_code (validate pid x buffer), e)
       else wait_loop pid timeout sels rcvs (buffer_after x buffer) e.
Proof.
  intros x buffer Hv. split; [apply wait_loop_timeout|].
  rewrite wait_loop_ready. fold x buffer.
  rewrite (on_packet_rejected pid timeout x buffer Hv).
  destruct (timeout =? 0); reflexivity.
Qed.

(** With a deadline, any number of packets that fail validation are
    passed over; if nothing else arrives before [select] reports that the
    time is up, the result is [PING_TIMEOUT]. *)
Lemma wait_loop_strays_then_timeout pid timeout (ds : list (list byte)) :
  timeout <> 0 ->
  forall buf e,
    all_rejected pid ds buf ->
    wait_loop pid timeout
      (repeat SelectReady (List.length ds) ++ [SelectTimeout])
      (map RecvfromData ds) buf e
    = Some (PING_TIMEOUT, e).
Proof.
  intros Ht. apply Z.eqb_neq in Ht.
  induction ds as [|d ds IH]; intros buf e Hall.
  - reflexivity.
  - destruct Hall as [Hv Hrest].
    cbn [List.length repeat app map].
    rewrite wait_loop_ready, (on_packet_rejected _ _ _ _ Hv), Ht.
    apply IH. exact Hrest.
Qed.

(** C9.  A received packet that passes the size and checksum tests and
    whose type is neither echo nor echo reply ends the function in both
    timeout modes: [PING_HOST_UNREACH] for destination unreachable,
    whatever its identifier field and the process id,
    [PING_INVALID_RESPONSE] for any other type. *)
Theorem wait_loop_type_dispatch_final
    (pid timeout : Z) (sels : list select_result)
    (rcvs : list recvfrom_result) (buf datagram : list byte) (e : Z) :
  let x := u32 (recvfrom_ret (RecvfromData datagram)) in
  let buffer := recvfrom_store (RecvfromData datagram) buf in
  too_short x buffer = false ->
  bad_checksum buffer = false ->
  icmp_type buffer <> ICMP_ECHO ->
  icmp_type buffer <> ICMP_ECHOREPLY ->
  wait_loop pid timeout (SelectReady :: sels)
    (RecvfromData datagram :: rcvs) buf e
  = Some (if icmp_type buffer =? ICMP_DEST_UNREACH
          then PING_HOST_UNREACH else PING_INVALID_RESPONSE, e).
Proof.
  intros x buffer Hs Hc He Hr.
  rewrite wait_loop_ready. fold x buffer.
  rewrite (on_packet_other_type pid timeout x buffer Hs Hc He Hr).
  reflexivity.
Qed.

Lemma wait_loop_validation_failure_witness :
  validate 4660
    (u32 (recvfrom_ret
            (RecvfromData (icmp_datagram 5 ICMP_ECHOREPLY 4661 0))))
    (recvfrom_store (RecvfromData (icmp_datagram 5 ICMP_ECHOREPLY 4661 0))
       (echo_request 4660 0))
  <> Passed
  /\ wait_loop 4660 1 [SelectTimeout] [] (echo_request 4660 0) 0
     = Some (PING_TIMEOUT, 0)
  /\ wait_loop 4660 1 [SelectReady; SelectTimeout]
       [RecvfromData (icmp_datagram 5 ICMP_ECHOREPLY 4661 0)]
       (echo_request 4660 0) 0
     = Some (PING_TIMEOUT, 0).
Proof.
  assert (Hv : validate 4660
                 (u32 (recvfrom_ret
                         (RecvfromData
                            (icmp_datagram 5 ICMP_ECHOREPLY 4661 0))))
                 (recvfrom_store
                    (RecvfromData (icmp_datagram 5 ICMP_ECHOREPLY 4661 0))
                    (echo_request 4660 0))
               <> Passed)
    by (vm_compute; discriminate).
  split; [exact Hv|].
  pose proof (wait_loop_validation_failure 4660 1 [] [] (echo_request 4660 0)
                (icmp_datagram 5 ICMP_ECHOREPLY 4661 0) 0 Hv) as [Ht _].
  pose proof (wait_loop_validation_failure 4660 1 [SelectTimeout] []
                (echo_request 4660 0)
                (icmp_datagram 5 ICMP_ECHOREPLY 4661 0) 0 Hv) as [_ Hr].
  split; [exact Ht|].
  rewrite Hr. reflexivity.
Defined.

Lemma wait_loop_type_dispatch_final_witness :
  wait_loop 4660 1 [SelectReady]
    [RecvfromData (icmp_datagram 5 ICMP_DEST_UNREACH 9999 7)]
    (echo_request 4660 0) 0
  = Some (PING_HOST_UNREACH, 0).
Proof.
  apply (wait_loop_type_dispatch_final 4660 1 [] []
           (echo_request 4660 0)
           (icmp_datagram 5 ICMP_DEST_UNREACH 9999 7) 0).
  - vm_compute; reflexivity.
  - vm_compute; reflexivity.
  - vm_compute; discriminate.
  - vm_compute; discriminate.
Defined.

(** ** Name resolution *)

Lemma gethostbyname_loop_retries (hostname : string) (sin : sockaddr_in)
    (ans : hostent_result) (rest : list hostent_result) :
  ans <> HostError TRY_AGAIN ->
  forall n calls,
  exists r,
    gethostbyname_loop hostname sin
      (repeat (HostError TRY_AGAIN) n ++ ans :: rest) calls = Some r
    /\ ga_calls r = calls ++ repeat (Gethostbyname hostname) (S n).
Proof.
  intros Hans. induction n as [|n IH]; intros calls.
  - cbn [repeat app gethostbyname_loop].
    destruct ans as [a|h].
    + eexists. split; reflexivity.
    + destruct (Z.eqb_spec h TRY_AGAIN) as [->|_]; [contradiction|].
      destruct ((h =? HOST_NOT_FOUND) || (h =? NO_ADDRESS)
                || (h =? NO_RECOVERY));
        eexists; split; reflexivity.
  - cbn [repeat app gethostbyname_loop].
    change (TRY_AGAIN =? TRY_AGAIN) with true. cbv iota.
    destruct (IH (calls ++ [Gethostbyname hostname])) as [r [Hr Hc]].
    exists r. split; [exact Hr|].
    rewrite Hc, <- app_assoc. reflexivity.
Qed.

(** C5 (amended).  For a host name that begins with a decimal digit the
    literal parse is tried first.  When it succeeds, the parsed address
    is returned and the resolver is not called.  When it fails, the same
    name goes to [gethostbyname], which is called until it answers with
    something other than [TRY_AGAIN]. *)
Theorem icmp_ping_getaddr_digit_leading
    (inet_pton : string -> option in_addr) (hostname : string) :
  isdigit (first_char hostname) = true ->
  (forall a answers,
     inet_pton hostname = Some a ->
     icmp_ping_getaddr inet_pton hostname answers
     = Some (mk_getaddr_result 0 (mk_sockaddr_in AF_INET 0 a)
               [Inet_pton hostname]))
  /\ (inet_pton hostname = None ->
      forall n ans rest,
        ans <> HostError TRY_AGAIN ->
        exists r,
          icmp_ping_getaddr inet_pton hostname
            (repeat (HostError TRY_AGAIN) n ++ ans :: rest) = Some r
          /\ ga_calls r
             = Inet_pton hostname
               :: repeat (Gethostbyname hostname) (S n)).
Proof.
  intros Hd. unfold icmp_ping_getaddr. rewrite Hd. split.
  - intros a answers Ha. rewrite Ha. reflexivity.
  - intros Hn n ans rest Hans. rewrite Hn.
    apply (gethostbyname_loop_retries hostname _ ans rest Hans n
             [Inet_pton hostname]).
Qed.

Lemma icmp_ping_getaddr_digit_leading_witness :
  icmp_ping_getaddr inet_pton4 "127.0.0.1" []
  = Some (mk_getaddr_result 0
            (mk_sockaddr_in AF_INET 0 [byte_of_Z 127; x00; x00; x01])
            [Inet_pton "127.0.0.1"]).
Proof.
  apply (icmp_ping_getaddr_digit_leading inet_pton4 "127.0.0.1").
  - reflexivity.
  - reflexivity.
Defined.

(** C5, as stated, fails: "1.invalid.example" begins with a digit and is
    not a dotted quad, and the function asks the resolver for it. *)
Lemma icmp_ping_getaddr_digit_leading_resolved :
  isdigit (first_char "1.invalid.example") = true
  /\ inet_pton4 "1.invalid.example" = None
  /\ icmp_ping_getaddr inet_pton4 "1.invalid.example"
       [HostError HOST_NOT_FOUND]
     = Some (mk_getaddr_result PING_HOST_NOT_FOUND
               (mk_sockaddr_in AF_INET 0 [x00; x00; x00; x00])
               [Inet_pton "1.invalid.example";
                Gethostbyname "1.invalid.example"]).
Proof. repeat split. Qed.

(** ** Result texts *)

(** C10.  Every result code has its own text except
    [PING_INVALID_CHECKSUM]: its case formats a text and leaves the
    [switch] by [break], and the text returned is the fallback one. *)
Theorem icmp_ping_strerror_texts
    (strerror : Z -> string) (errno : Z) (buf : string) :
  icmp_ping_strerror strerror errno PING_ERRNO buf = strerror errno
  /\ icmp_ping_strerror strerror errno PING_SUCCESS buf = strerror 0
  /\ icmp_ping_strerror strerror errno PING_TIMEOUT buf
     = strerror ETIMEDOUT
  /\ icmp_ping_strerror strerror errno PING_HOST_UNREACH buf
     = strerror EHOSTUNREACH
  /\ icmp_ping_strerror strerror errno PING_HOST_NOT_FOUND buf
     = "Host not found"%string
  /\ icmp_ping_strerror strerror errno PING_INVALID_SIZE buf
     = "Invalid size of reply packet"%string
  /\ icmp_ping_strerror strerror errno PING_INVALID_RESPONSE buf
     = "Invalid response"%string
  /\ icmp_ping_strerror strerror errno PING_INVALID_ID buf
     = "Invalid ID in response"%string
  /\ strerror_switch strerror errno PING_INVALID_CHECKSUM buf
     = inr "Invalid checksum"%string
  /\ icmp_ping_strerror strerror errno PING_INVALID_CHECKSUM buf
     = "Unkown (4)"%string.
Proof. repeat split. Qed.

End PingFacts.

(* ================================================================== *)
(** * The threshold calculator *)
(* ================================================================== *)

Module NetTieFacts.

Import NetTie.

(** Side conditions that a value is in the range of [int]. *)
Ltac in_range := unfold in_int, INT_MIN, INT_MAX in *; lia.

Lemma land_clear_bit0 a : Z.land a (Z.lnot 1) = 2 * (a / 2).
Proof.
  rewrite <- Z.ldiff_land. change 1 with (Z.ones 1) at 1.
  rewrite Z.ldiff_ones_r by lia.
  rewrite Z.shiftl_mul_pow2, Z.shiftr_div_pow2 by lia.
  change (2 ^ 1) with 2. lia.
Qed.

(** [((_tko & ~1) - 1) / 2] for a non-negative [_tko]. *)
Lemma half_window tko :
  0 <= tko ->
  0 <= Z.quot (Z.land tko (Z.lnot 1) - 1) 2
  /\ 2 * Z.quot (Z.land tko (Z.lnot 1) - 1) 2 + 1 <= Z.max tko 1.
Proof.
  intros Ht. rewrite land_clear_bit0.
  destruct (Z.eq_dec (tko / 2) 0) as [E|E].
  - rewrite E. change (Z.quot (2 * 0 - 1) 2) with 0. lia.
  - assert (1 <= tko / 2) by (pose proof (Z.div_pos tko 2); lia).
    rewrite Z.quot_div_nonneg by lia.
    pose proof (Z.div_mod tko 2). pose proof (Z.mod_pos_bound tko 2).
    pose proof (Z.div_mod (2 * (tko / 2) - 1) 2).
    pose proof (Z.mod_pos_bound (2 * (tko / 2) - 1) 2). lia.
Qed.

Lemma get_interval_tko_accepts fo i g :
  2000000 <= fo -> 1 <= i ->
  in_int (fo + 3 * i) -> in_int (4 * i) ->
  let h := Z.quot (Z.land (fo / i) (Z.lnot 1) - 1) 2 in
  let i' := 4 * i / 3 in
  get_interval_tko fo i g
  = Some (0,
          mk_globals i' ((fo + 3 * i) / i') (i * h / i') (net_thread g)
            (net_vote_alive g) (tb_ip g) (totem_timeout g),
          [LogInterval i' ((fo + 3 * i) / i') (i * h / i')]).
Proof.
  intros Hfo Hi Hup H4 h i'. unfold in_int, INT_MIN, INT_MAX in Hup, H4.
  assert (Htko : 0 <= fo / i <= fo).
  { split; [apply Z.div_pos; lia|].
    apply Z.div_le_upper_bound; nia. }
  destruct (half_window (fo / i) (proj1 Htko)) as [Hh0 Hh1]. fold h in Hh0, Hh1.
  assert (Hdown : 0 <= i * h <= fo).
  { split; [nia|].
    pose proof (Z.mul_div_le fo i ltac:(lia)). nia. }
  assert (Hi' : 1 <= i' <= 4 * i).
  { subst i'. split.
    - apply Z.div_le_lower_bound; lia.
    - apply Z.div_le_upper_bound; lia. }
  assert (Hon : 0 <= (fo + 3 * i) / i' <= fo + 3 * i).
  { split; [apply Z.div_pos; lia|]. apply Z.div_le_upper_bound; nia. }
  assert (Hoff : 0 <= i * h / i' <= fo).
  { split; [apply Z.div_pos; lia|]. apply Z.div_le_upper_bound; nia. }
  unfold get_interval_tko.
  destruct (Z.ltb_spec fo 2000000) as [|_]; [lia|].
  destruct (Z.eqb_spec i 0) as [|_]; [lia|].
  rewrite (Z.quot_div_nonneg fo i) by lia.
  rewrite (s32_in_int (fo / i)) by in_range.
  rewrite (s32_in_int (3 * i)) by in_range.
  rewrite (s32_in_int (fo + 3 * i)) by in_range.
  assert (Hl : -1 <= Z.land (fo / i) (Z.lnot 1) - 1 <= fo).
  { rewrite land_clear_bit0. pose proof (Z.mul_div_le (fo / i) 2 ltac:(lia)).
    pose proof (Z.div_pos (fo / i) 2). lia. }
  rewrite (s32_in_int (Z.land (fo / i) (Z.lnot 1) - 1))
    by in_range.
  fold h.
  rewrite (s32_in_int (i * h)) by in_range.
  rewrite Z.shiftl_mul_pow2 by lia. change (2 ^ 2) with 4.
  replace (i * 4) with (4 * i) by lia.
  rewrite (s32_in_int (4 * i)) by in_range.
  rewrite (Z.quot_div_nonneg (4 * i) 3) by lia. fold i'.
  destruct (Z.eqb_spec i' 0) as [|_]; [lia|].
  rewrite (Z.quot_div_nonneg (fo + 3 * i) i') by lia.
  rewrite (Z.quot_div_nonneg (i * h) i') by lia.
  rewrite (s32_in_int ((fo + 3 * i) / i')) by in_range.
  rewrite (s32_in_int (i * h / i')) by in_range.
  reflexivity.
Qed.

(** C2.  For a failover time of at least two seconds and a ping
    interval of at least one microsecond, with [fo_time + 3 * _interval]
    and [_interval << 2] inside the range of [int] (no other operation
    can then leave it), the call succeeds and the values it publishes
    satisfy
    [declare_offline * ping_interval < fo_time
     <= declare_online * ping_interval]. *)
Theorem get_interval_tko_window (fo i : Z) (g : globals) :
  2000000 <= fo -> 1 <= i ->
  in_int (fo + 3 * i) -> in_int (4 * i) ->
  exists g' log,
    get_interval_tko fo i g = Some (0, g', log)
    /\ declare_offline g' * ping_interval g' < fo
       <= declare_online g' * ping_interval g'.
Proof.
  intros Hfo Hi Hup H4.
  rewrite (get_interval_tko_accepts fo i g Hfo Hi Hup H4).
  eexists. eexists. split; [reflexivity|].
  cbn [declare_offline declare_online ping_interval].
  unfold in_int, INT_MIN, INT_MAX in *.
  assert (Htko : 0 <= fo / i) by (apply Z.div_pos; lia).
  destruct (half_window (fo / i) Htko) as [Hh0 Hh1].
  set (h := Z.quot (Z.land (fo / i) (Z.lnot 1) - 1) 2) in *.
  set (i' := 4 * i / 3).
  assert (Hi' : 1 <= i' /\ 3 * i' <= 4 * i).
  { subst i'. split.
    - apply Z.div_le_lower_bound; lia.
    - apply Z.mul_div_le; lia. }
  pose proof (Z.mul_div_le fo i ltac:(lia)) as Hq.
  split.
  - pose proof (Z.mul_div_le (i * h) i' ltac:(lia)). nia.
  - pose proof (Z.div_mod (fo + 3 * i) i' ltac:(lia)).
    pose proof (Z.mod_pos_bound (fo + 3 * i) i' ltac:(lia)). nia.
Qed.

Lemma get_interval_tko_window_witness :
  exists g' log,
    get_interval_tko 10000000 1000000 initial_globals = Some (0, g', log)
    /\ declare_offline g' * ping_interval g' < 10000000
       <= declare_online g' * ping_interval g'.
Proof.
  apply (get_interval_tko_window 10000000 1000000 initial_globals).
  - lia.
  - lia.
  - unfold in_int, INT_MIN, INT_MAX. lia.
  - unfold in_int, INT_MIN, INT_MAX. lia.
Defined.

(** The instance of the specification, with the values published. *)
Lemma get_interval_tko_ten_seconds :
  get_interval_tko 10000000 1000000 initial_globals
  = Some (0, mk_globals 1333333 9 3 0 0 None 0, [LogInterval 1333333 9 3])
  /\ 3 * 1333333 < 10000000 <= 9 * 1333333.
Proof. split; [reflexivity | lia]. Qed.

(** ** The configuration call *)

(** C8.  Without a target, or with a token timeout below two seconds,
    [net_tiebreaker_init] returns -1 and leaves every global as it was:
    the interval, both thresholds and the target among them.  [errno] is
    the [EINVAL] stored on entry only where no [LOG] follows the store,
    which is the case without a target.  With a target and a token
    timeout below two seconds the [LOG] of [get_interval_tko] runs
    between the store and the [return], and [errno] is what [syslog] and
    [printf] have made of it: [EBADF] with the standard output closed,
    not [EINVAL]. *)
Theorem net_tiebreaker_init_rejects (fx : log_effect)
    (target : option string) (token interval : Z) (g : globals) :
  target = None \/ token < 2000000 ->
  exists log,
    net_tiebreaker_init fx target token interval g
    = Some (mk_init_result (Some (-1))
              (match target with
               | None => EINVAL
               | Some _ => LOG fx EINVAL
               end) g log).
Proof.
  intros H. unfold net_tiebreaker_init.
  destruct target as [t|].
  - destruct H as [H|H]; [discriminate H|].
    unfold get_interval_tko.
    destruct (Z.ltb_spec token 2000000) as [_|Hge]; [|lia].
    eexists. reflexivity.
  - eexists. reflexivity.
Qed.

Lemma net_tiebreaker_init_rejects_witness :
  exists log,
    net_tiebreaker_init (mk_log_effect None (Some EBADF))
      (Some "10.0.0.2"%string) 1000000 1000000
      (mk_globals 1333333 9 3 1 1 (Some "10.0.0.1"%string) 0)
    = Some (mk_init_result (Some (-1)) EBADF
              (mk_globals 1333333 9 3 1 1 (Some "10.0.0.1"%string) 0) log).
Proof.
  apply (net_tiebreaker_init_rejects (mk_log_effect None (Some EBADF))
           (Some "10.0.0.2"%string) 1000000 1000000
           (mk_globals 1333333 9 3 1 1 (Some "10.0.0.1"%string) 0)).
  right. lia.
Defined.

(** The same call where logging leaves [errno] alone, and the call
    without a target: [EINVAL] in both. *)
Lemma net_tiebreaker_init_quiet_einval :
  net_tiebreaker_init quiet_log (Some "10.0.0.2"%string) 1000000 1000000
    (mk_globals 1333333 9 3 1 1 (Some "10.0.0.1"%string) 0)
  = Some (mk_init_result (Some (-1)) EINVAL
            (mk_globals 1333333 9 3 1 1 (Some "10.0.0.1"%string) 0)
            [LogTooFast])
  /\ net_tiebreaker_init (mk_log_effect None (Some EBADF)) None
       10000000 1000000
       (mk_globals 1333333 9 3 1 1 (Some "10.0.0.1"%string) 0)
     = Some (mk_init_result (Some (-1)) EINVAL
               (mk_globals 1333333 9 3 1 1 (Some "10.0.0.1"%string) 0) []).
Proof. split; reflexivity. Qed.

(** What [LOG] does to [errno] does not reach the globals. *)
Lemma net_tiebreaker_init_globals_any_log (fx fx' : log_effect)
    target token interval g :
  option_map init_globals (net_tiebreaker_init fx target token interval g)
  = option_map init_globals
      (net_tiebreaker_init fx' target token interval g).
Proof.
  unfold net_tiebreaker_init.
  destruct target as [t|]; [|reflexivity].
  destruct (get_interval_tko token interval g) as [[[rv g'] log]|];
    [|reflexivity].
  cbv zeta. destruct (rv <? 0); reflexivity.
Qed.

(** A call that gets as far as returning leaves the vote alone. *)
Lemma net_tiebreaker_init_vote fx target token interval g r :
  net_tiebreaker_init fx target token interval g = Some r ->
  net_vote_alive (init_globals r) = net_vote_alive g.
Proof.
  unfold net_tiebreaker_init, get_interval_tko.
  destruct target as [t|]; [|intros H; injection H as <-; reflexivity].
  repeat match goal with
         | |- context [if ?c then _ else _] => destruct c
         end;
    intros H; try discriminate H; injection H as <-; reflexivity.
Qed.

Lemma interfere_vote call g g' :
  interfere call g = Some g' -> net_vote_alive g' = net_vote_alive g.
Proof.
  destruct call as [[[target token] interval]|]; cbn [interfere].
  - destruct (net_tiebreaker_init quiet_log target token interval g)
      as [r|] eqn:Hr; cbn [option_map]; [|discriminate].
    intros H. injection H as <-.
    exact (net_tiebreaker_init_vote _ _ _ _ _ _ Hr).
  - intros H. injection H as <-. reflexivity.
Qed.

End NetTieFacts.

(* ================================================================== *)
(** * The liveness voter *)
(* ================================================================== *)

Module VoterFacts.

Import NetTie.
Import NetTieFacts.

(** One iteration against an unchanged target: the [strncpy] is within
    bounds and the [strcmp] finds the strings equal. *)
Lemma cycle_undisturbed (r e : Z) (g : globals) (l : locals) (ip : string) :
  tb_ip g = Some ip ->
  (String.length ip < target_size)%nat ->
  cycle (mk_cycle_input r e None) g l
  = let was_alive := s8 (net_vote_alive g) in
    let alive := if r =? 0 then 1 else 0 in
    let hits0 := if r =? 0 then hits l else 0 in
    let misses0 := if r =? 0 then 0 else misses l in
    if negb (was_alive =? 0) && (alive =? 0) then
      if s8 (misses0 + 1) <? s8 (declare_offline g) then
        Some (Voted (set_vote g was_alive) (mk_locals hits0 (s8 (misses0 + 1)))
                [LogMissedPing (s8 (misses0 + 1)) (s8 (declare_offline g)) r e]
                (ping_interval g))
      else
        Some (Voted (set_vote g alive) (mk_locals hits0 (s8 (misses0 + 1)))
                [LogOffline ip] (ping_interval g))
    else if (was_alive =? 0) && negb (alive =? 0) then
      if s8 (hits0 + 1) <? s8 (declare_online g) then
        Some (Voted (set_vote g was_alive) (mk_locals (s8 (hits0 + 1)) 0)
                [] (ping_interval g))
      else
        Some (Voted (set_vote g alive) (mk_locals (s8 (hits0 + 1)) misses0)
                [LogOnline ip] (ping_interval g))
    else
      Some (Voted (set_vote g alive) (mk_locals hits0 misses0) []
              (ping_interval g)).
Proof.
  intros Hip Hlen. unfold cycle.
  cbn [ping_ret ping_errno during_ping interfere].
  rewrite Hip.
  destruct (Nat.leb_spec target_size (String.length ip)) as [Hge|_]; [lia|].
  rewrite String.eqb_refl. cbn [negb].
  destruct (r =? 0); reflexivity.
Qed.

Local Arguments cycle : simpl never.

Ltac run_cycle ip Hlen :=
  cbn [thread_loop run_globals run_locals run_votes run_log];
  match goal with
  | |- context [cycle (mk_cycle_input ?r ?e None) ?g ?l] =>
      rewrite (cycle_undisturbed r e g l ip eq_refl Hlen)
  end;
  cbn.

(** C1.  From the dead state with [declare_online = 3] and
    [declare_offline = 2], whatever the failing pings return: the
    outcomes fail, fail, success, success, success store the votes
    0, 0, 0, 0, 1, and so do success, fail, success, success, success,
    where the failure takes the hit counter back to zero. *)
Theorem voter_hysteresis_sequences
    (ip : string) (interval thread totem e r1 r2 r3 : Z) :
  (String.length ip < target_size)%nat ->
  r1 <> 0 -> r2 <> 0 -> r3 <> 0 ->
  option_map run_votes
    (net_quorum_thread
       [mk_cycle_input r1 e None; mk_cycle_input r2 e None;
        mk_cycle_input 0 e None; mk_cycle_input 0 e None;
        mk_cycle_input 0 e None]
       (mk_globals interval 3 2 thread 0 (Some ip) totem))
  = Some [0; 0; 0; 0; 1]
  /\ option_map run_votes
       (net_quorum_thread
          [mk_cycle_input 0 e None; mk_cycle_input r3 e None;
           mk_cycle_input 0 e None; mk_cycle_input 0 e None;
           mk_cycle_input 0 e None]
          (mk_globals interval 3 2 thread 0 (Some ip) totem))
     = Some [0; 0; 0; 0; 1].
Proof.
  intros Hlen H1 H2 H3.
  apply Z.eqb_neq in H1, H2, H3.
  unfold net_quorum_thread, initial_locals. split.
  - run_cycle ip Hlen. rewrite H1. cbn.
    run_cycle ip Hlen. rewrite H2. cbn.
    do 3 run_cycle ip Hlen. reflexivity.
  - run_cycle ip Hlen.
    run_cycle ip Hlen. rewrite H3. cbn.
    do 3 run_cycle ip Hlen. reflexivity.
Qed.

Lemma voter_hysteresis_sequences_witness :
  option_map run_votes
    (net_quorum_thread
       [mk_cycle_input Ping.PING_TIMEOUT 0 None;
        mk_cycle_input Ping.PING_HOST_UNREACH 0 None;
        mk_cycle_input 0 0 None; mk_cycle_input 0 0 None;
        mk_cycle_input 0 0 None]
       (mk_globals 1000000 3 2 1 0 (Some "10.0.0.1"%string) 0))
  = Some [0; 0; 0; 0; 1]
  /\ option_map run_votes
       (net_quorum_thread
          [mk_cycle_input 0 0 None;
           mk_cycle_input Ping.PING_INVALID_ID 0 None;
           mk_cycle_input 0 0 None; mk_cycle_input 0 0 None;
           mk_cycle_input 0 0 None]
          (mk_globals 1000000 3 2 1 0 (Some "10.0.0.1"%string) 0))
     = Some [0; 0; 0; 0; 1].
Proof.
  apply (voter_hysteresis_sequences "10.0.0.1" 1000000 1 0 0
           Ping.PING_TIMEOUT Ping.PING_HOST_UNREACH Ping.PING_INVALID_ID).
  - unfold target_size. cbn. lia.
  - discriminate.
  - discriminate.
  - discriminate.
Defined.

(** ** A target that changes during the ping *)

(** C4 (amended).  When a concurrent [net_tiebreaker_init] has replaced
    the target by a different one while the ping was in flight, the
    iteration ends in [continue]: no vote is stored, so [net_vote_alive]
    keeps its value, and the next iteration starts from the new globals.
    The counter that the outcome of the ping resets has been reset by
    then ([misses] after a success, [hits] after a failure); the other
    counter is as it was. *)
Theorem cycle_target_changed
    (inp : cycle_input) (g g' : globals) (l : locals) (ip ip' : string) :
  tb_ip g = Some ip ->
  (String.length ip < target_size)%nat ->
  interfere (during_ping inp) g = Some g' ->
  tb_ip g' = Some ip' ->
  ip' <> ip ->
  let l' := if ping_ret inp =? 0 then mk_locals (hits l) 0
            else mk_locals 0 (misses l) in
  cycle inp g l = Some (Restarted g' l')
  /\ net_vote_alive g' = net_vote_alive g
  /\ forall inputs votes log,
       thread_loop (inp :: inputs) (mk_run g l votes log false)
       = thread_loop inputs (mk_run g' l' votes log false).
Proof.
  intros Hip Hlen Hint Hip' Hne l'.
  assert (Hc : cycle inp g l = Some (Restarted g' l')).
  { unfold cycle. rewrite Hip.
    destruct (Nat.leb_spec target_size (String.length ip)) as [Hge|_];
      [lia|].
    subst l'.
    destruct (ping_ret inp =? 0); rewrite Hint, Hip';
      apply String.eqb_neq in Hne; rewrite Hne; reflexivity. }
  split; [exact Hc|]. split; [exact (interfere_vote _ _ _ Hint)|].
  intros inputs votes log.
  cbn [thread_loop run_globals run_locals run_votes run_log].
  rewrite Hc. reflexivity.
Qed.

Lemma cycle_target_changed_witness :
  cycle
    (mk_cycle_input 0 0 (Some (Some "10.0.0.2"%string, 10000000, 1000000)))
    (mk_globals 1000000 3 2 1 1 (Some "10.0.0.1"%string) 0) (mk_locals 3 1)
  = Some (Restarted (mk_globals 1333333 9 3 1 1 (Some "10.0.0.2"%string) 0)
            (mk_locals 3 0)).
Proof.
  apply (cycle_target_changed
           (mk_cycle_input 0 0
              (Some (Some "10.0.0.2"%string, 10000000, 1000000)))
           (mk_globals 1000000 3 2 1 1 (Some "10.0.0.1"%string) 0)
           (mk_globals 1333333 9 3 1 1 (Some "10.0.0.2"%string) 0)
           (mk_locals 3 1) "10.0.0.1" "10.0.0.2").
  - reflexivity.
  - unfold target_size. cbn. lia.
  - reflexivity.
  - reflexivity.
  - discriminate.
Defined.

(** C4, as stated, fails.  Two successful pings from the dead state leave
    [hits = 2]; a third ping fails while the target is being replaced:
    the iteration restarts, no vote is stored, and [hits] is 0. *)
Lemma cycle_target_changed_resets_hits :
  option_map run_locals
    (net_quorum_thread
       [mk_cycle_input 0 0 None; mk_cycle_input 0 0 None]
       (mk_globals 1000000 3 2 1 0 (Some "10.0.0.1"%string) 0))
  = Some (mk_locals 2 0)
  /\ cycle
       (mk_cycle_input Ping.PING_TIMEOUT 0
          (Some (Some "10.0.0.2"%string, 10000000, 1000000)))
       (mk_globals 1000000 3 2 1 0 (Some "10.0.0.1"%string) 0)
       (mk_locals 2 0)
     = Some (Restarted
               (mk_globals 1333333 9 3 1 0 (Some "10.0.0.2"%string) 0)
               (mk_locals 0 0))
  /\ hits (mk_locals 0 0) <> hits (mk_locals 2 0).
Proof.
  split; [reflexivity|]. split; [reflexivity|]. discriminate.
Qed.

End VoterFacts.

(* ================================================================== *)
(** * More on the checksum *)
(* ================================================================== *)

Module ChecksumVerify.

Import Ping.
Import ChecksumFacts.

(** ** Folding and verification *)

(** The value the function makes of the 32-bit sum [sum]: with [t] the
    sum of its two halves, the complement of [t], or of [t - 65535] when
    [t] does not fit in 16 bits. *)
Lemma icmp_checksum_fold (buf : list byte) :
  let sum := checksum_loop buf 0 in
  let t := sum / 65536 + sum mod 65536 in
  0 <= sum < 2 ^ 32 ->
  icmp_checksum buf = 65535 - (if t <? 65536 then t else t - 65535).
Proof.
  intros sum t Hsum. unfold icmp_checksum. fold sum.
  change (2 ^ 32) with 4294967296 in Hsum.
  rewrite (Z.shiftr_div_pow2 sum 16) by lia.
  change 65535 with (Z.ones 16) at 1 2.
  rewrite (Z.land_ones sum 16) by lia.
  change (2 ^ 16) with 65536. fold t.
  assert (Ht : 0 <= t <= 131070).
  { subst t. pose proof (Z.mod_pos_bound sum 65536 ltac:(lia)).
    pose proof (Z.div_pos sum 65536 ltac:(lia) ltac:(lia)).
    assert (sum / 65536 < 65536) by (apply Z.div_lt_upper_bound; lia).
    lia. }
  rewrite (u32_small t) by (change (2 ^ 32) with 4294967296; lia).
  rewrite (Z.shiftr_div_pow2 t 16) by lia. change (2 ^ 16) with 65536.
  assert (Hq : t / 65536 = if t <? 65536 then 0 else 1).
  { destruct (Z.ltb_spec t 65536).
    - apply Z.div_small. lia.
    - symmetry. apply (Z.div_unique t 65536 1 (t - 65536)); lia. }
  rewrite Hq.
  set (s2 := t + (if t <? 65536 then 0 else 1)).
  assert (Hs2 : 0 <= s2 <= 131071) by (subst s2; destruct (t <? 65536); lia).
  rewrite (u32_small s2) by (change (2 ^ 32) with 4294967296; lia).
  unfold u32 at 1, wrapu. unfold Z.lnot, Z.pred.
  replace ((- s2 + -1) mod 2 ^ 32) with (4294967295 - s2)
    by (apply (Z.mod_unique _ _ (-1)); change (2 ^ 32) with 4294967296; lia).
  rewrite (Z.land_ones _ 16) by lia. change (2 ^ 16) with 65536.
  rewrite u16_small by (apply Z.mod_pos_bound; lia).
  subst s2. destruct (Z.ltb_spec t 65536).
  - symmetry. apply (Z.mod_unique _ _ 65535); lia.
  - symmetry. apply (Z.mod_unique _ _ 65534); lia.
Qed.

(** The arithmetic of verification: adding the checksum of a sum to the
    sum gives a value that folds to 0xffff. *)
Lemma fold_with_checksum (sum c : Z) :
  0 <= sum < 2 ^ 32 - 65535 ->
  (let t := sum / 65536 + sum mod 65536 in
   c = 65535 - (if t <? 65536 then t else t - 65535)) ->
  let t' := (sum + c) / 65536 + (sum + c) mod 65536 in
  (if t' <? 65536 then t' else t' - 65535) = 65535.
Proof.
  change (2 ^ 32) with 4294967296. intros Hsum Hc t'.
  pose proof (Z.div_mod sum 65536 ltac:(lia)) as Hd.
  pose proof (Z.mod_pos_bound sum 65536 ltac:(lia)) as Hm.
  pose proof (Z.div_mod (sum + c) 65536 ltac:(lia)) as Hd'.
  pose proof (Z.mod_pos_bound (sum + c) 65536 ltac:(lia)) as Hm'.
  cbv zeta in Hc. subst t'.
  set (a := sum / 65536) in *. set (b := sum mod 65536) in *.
  set (a' := (sum + c) / 65536) in *. set (b' := (sum + c) mod 65536) in *.
  clearbody a b a' b'.
  destruct (Z.ltb_spec (a + b) 65536); destruct (Z.ltb_spec (a' + b') 65536);
    lia.
Qed.

Lemma byte_val_of_Z (z : Z) : byte_val (byte_of_Z z) = z mod 256.
Proof.
  unfold byte_val, byte_of_Z.
  pose proof (Z.mod_pos_bound z 256 ltac:(lia)) as Hm.
  destruct (Byte.of_N (Z.to_N (z mod 256))) as [b|] eqn:Hb.
  - apply Byte.to_of_N in Hb. rewrite Hb. lia.
  - apply Byte.of_N_None_iff in Hb. lia.
Qed.

(** A 16-bit store followed by a 16-bit load. *)
Lemma load16_bytes16 (v : Z) :
  load16 (byte_of_Z (u16 v)) (byte_of_Z (u16 v / 256)) = u16 v.
Proof.
  unfold load16. rewrite !byte_val_of_Z.
  pose proof (u16_range v) as Hv. change (2 ^ 16) with 65536 in Hv.
  rewrite (Z.mod_small (u16 v / 256) 256)
    by (split; [apply Z.div_pos; lia | apply Z.div_lt_upper_bound; lia]).
  pose proof (Z.div_mod (u16 v) 256 ltac:(lia)). lia.
Qed.

Lemma icmp_checksum_range (buf : list byte) : 0 <= icmp_checksum buf < 65536.
Proof. unfold icmp_checksum. apply u16_range. Qed.

(** The sum of an even number of bytes, as long as it cannot wrap: it
    grows by at most 65535 for every two bytes. *)
Lemma checksum_loop_bound (buf : list byte) :
  Nat.even (List.length buf) = true ->
  forall sum,
    0 <= sum ->
    2 * sum + 65535 * Z.of_nat (List.length buf) < 2 * 2 ^ 32 ->
    sum <= checksum_loop buf sum
    /\ 2 * checksum_loop buf sum
       <= 2 * sum + 65535 * Z.of_nat (List.length buf).
Proof.
  change (2 ^ 32) with 4294967296.
  induction buf as [| a | a b buf IH] using list_pair_ind;
    intros Hev sum Hs Hfit.
  - cbn. lia.
  - discriminate Hev.
  - cbn [checksum_loop]. cbn [List.length] in Hfit |- *.
    rewrite !Nat2Z.inj_succ in *.
    set (n := Z.of_nat (List.length buf)) in *.
    assert (Hn : 0 <= n) by apply Nat2Z.is_nonneg.
    clearbody n.
    pose proof (load16_range a b) as Hw. change (2 ^ 16) with 65536 in Hw.
    rewrite u32_small by (change (2 ^ 32) with 4294967296; lia).
    specialize (IH Hev (sum + load16 a b) ltac:(lia) ltac:(lia)). lia.
Qed.

(** Verification by the receiver's rule.  For a buffer of even length,
    up to 131070 bytes, the buffer followed by its own checksum has
    checksum zero. *)
Theorem icmp_checksum_verifies (buf : list byte) :
  Nat.even (List.length buf) = true ->
  Z.of_nat (List.length buf) <= 131070 ->
  icmp_checksum (buf ++ bytes16 (icmp_checksum buf)) = 0.
Proof.
  intros Hev Hlen.
  pose proof (checksum_loop_bound buf Hev 0 ltac:(lia)) as Hb.
  change (2 ^ 32) with 4294967296 in Hb.
  specialize (Hb ltac:(lia)).
  set (S := checksum_loop buf 0) in *.
  pose proof (icmp_checksum_range buf) as Hc.
  assert (HS : 0 <= S < 2 ^ 32) by (change (2 ^ 32) with 4294967296; lia).
  pose proof (icmp_checksum_fold buf HS) as Hfold. fold S in Hfold.
  set (c := icmp_checksum buf) in *.
  assert (Hsum : checksum_loop (buf ++ bytes16 c) 0 = S + c).
  { rewrite checksum_loop_app by exact Hev. fold S.
    unfold bytes16. cbn [checksum_loop].
    rewrite load16_bytes16, (u16_small c) by (change (2 ^ 16) with 65536; lia).
    apply u32_small. change (2 ^ 32) with 4294967296. lia. }
  assert (HS' : 0 <= checksum_loop (buf ++ bytes16 c) 0 < 2 ^ 32)
    by (rewrite Hsum; change (2 ^ 32) with 4294967296; lia).
  rewrite (icmp_checksum_fold _ HS'). rewrite Hsum.
  rewrite (fold_with_checksum S c); [reflexivity | | exact Hfold].
  change (2 ^ 32) with 4294967296. lia.
Qed.

Lemma icmp_checksum_verifies_witness :
  icmp_checksum ([x08; x00; x34; x12]
                 ++ bytes16 (icmp_checksum [x08; x00; x34; x12])) = 0.
Proof.
  apply (icmp_checksum_verifies [x08; x00; x34; x12]).
  - reflexivity.
  - cbn. lia.
Defined.

End ChecksumVerify.

(* ================================================================== *)
(** * More on the ping engine *)
(* ================================================================== *)

Module PingMore.

Import Ping.
Import ChecksumFacts.
Import ChecksumVerify.
Import PingFacts.

Lemma icmp_checksum_pad_low_witness :
  icmp_checksum ([x08; x00] ++ [x7f])
  = icmp_checksum (([x08; x00] ++ [x7f]) ++ [x00]).
Proof.
  apply (icmp_checksum_pad_low [x08; x00] x7f).
  - reflexivity.
  - vm_compute. reflexivity.
Defined.

(** ** What the function returns *)

(** What [on_packet] can return. *)
Lemma on_packet_returns pid timeout x buffer rv :
  on_packet pid timeout x buffer = Return rv ->
  0 <= rv <= 7 /\ rv <> PING_TIMEOUT /\ rv <> PING_HOST_NOT_FOUND.
Proof.
  unfold on_packet. intros H.
  repeat match type of H with
         | (if ?c then _ else _) = _ => destruct c
         end; try discriminate H; injection H as <-;
    unfold PING_INVALID_SIZE, PING_INVALID_CHECKSUM, PING_INVALID_ID,
      PING_SUCCESS, PING_HOST_UNREACH, PING_INVALID_RESPONSE,
      PING_TIMEOUT, PING_HOST_NOT_FOUND; lia.
Qed.

Lemma wait_loop_returns pid timeout (sels : list select_result) :
  forall rcvs buf e rv e',
    wait_loop pid timeout sels rcvs buf e = Some (rv, e') ->
    0 <= rv <= 7 /\ rv <> PING_HOST_NOT_FOUND.
Proof.
  induction sels as [|sel sels IH]; intros rcvs buf e rv e';
    cbn [wait_loop]; [discriminate|].
  destruct (Z.leb_spec (u32 (select_ret sel)) 0) as [Hle|_].
  - pose proof (u32_range (select_ret sel)) as Hr.
    destruct (Z.eqb_spec (u32 (select_ret sel)) 0) as [_|Hne]; [|lia].
    intros H. injection H as <- _.
    unfold PING_TIMEOUT, PING_HOST_NOT_FOUND. lia.
  - destruct rcvs as [|rcv rcvs]; [discriminate|].
    rewrite u32_not_neg.
    destruct (on_packet pid timeout (u32 (recvfrom_ret rcv))
                (recvfrom_store rcv buf)) as [rv0|b] eqn:Hp.
    + intros H. injection H as <- _.
      pose proof (on_packet_returns _ _ _ _ _ Hp). tauto.
    + apply IH.
Qed.

(** The values [icmp_ping_addrfd] returns are among 0, 1, 2, 4, 5, 6
    and 7: neither [PING_ERRNO] nor [PING_HOST_NOT_FOUND] is one. *)
Theorem icmp_ping_addrfd_returns pid seq timeout w rv e :
  icmp_ping_addrfd pid seq timeout w = Some (rv, e) ->
  0 <= rv <= 7 /\ rv <> PING_HOST_NOT_FOUND.
Proof.
  unfold icmp_ping_addrfd.
  destruct (send_loop (sendto_answers w) (errno w)) as [[[rv0|u] e0]|] eqn:Hs.
  - exfalso. exact (send_loop_never_returns _ _ _ _ Hs).
  - apply wait_loop_returns.
  - discriminate.
Qed.

Lemma icmp_ping_addrfd_returns_witness :
  0 <= PING_TIMEOUT <= 7 /\ PING_TIMEOUT <> PING_HOST_NOT_FOUND.
Proof.
  apply (icmp_ping_addrfd_returns 4660 0 1
           (mk_world 0 [SendtoError 1] [SelectTimeout] []) PING_TIMEOUT 1).
  reflexivity.
Defined.

(** Short sends are repeated: the call behaves as if the environment had
    only given the answers that follow them. *)
Theorem icmp_ping_addrfd_short_sends pid seq timeout (shorts : list nat)
    (e : Z) (sends : list sendto_result) sels rcvs :
  Forall (fun n => Z.of_nat n < packetlen) shorts ->
  icmp_ping_addrfd pid seq timeout
    (mk_world e (map SendtoSent shorts ++ sends) sels rcvs)
  = icmp_ping_addrfd pid seq timeout (mk_world e sends sels rcvs).
Proof.
  intros Hs. unfold icmp_ping_addrfd.
  cbn [sendto_answers errno select_answers recvfrom_answers].
  replace (send_loop (map SendtoSent shorts ++ sends) e)
    with (send_loop sends e); [reflexivity|].
  induction Hs as [|n shorts Hn _ IH]; [reflexivity|].
  cbn [map app]. rewrite send_loop_short by exact Hn. exact IH.
Qed.

Lemma icmp_ping_addrfd_short_sends_witness :
  icmp_ping_addrfd 4660 0 1
    (mk_world 0 (map SendtoSent [0%nat; 8%nat; 15%nat] ++ [SendtoSent 16])
       [SelectTimeout] [])
  = icmp_ping_addrfd 4660 0 1
      (mk_world 0 [SendtoSent 16] [SelectTimeout] []).
Proof.
  apply (icmp_ping_addrfd_short_sends 4660 0 1 [0%nat; 8%nat; 15%nat]).
  repeat constructor.
Defined.

Lemma wait_loop_strays_then_timeout_witness :
  wait_loop 4660 1
    (repeat SelectReady
       (List.length [icmp_datagram 5 ICMP_ECHOREPLY 4661 0; [x45]])
     ++ [SelectTimeout])
    (map RecvfromData [icmp_datagram 5 ICMP_ECHOREPLY 4661 0; [x45]])
    (echo_request 4660 0) 0
  = Some (PING_TIMEOUT, 0).
Proof.
  apply (wait_loop_strays_then_timeout 4660 1
           [icmp_datagram 5 ICMP_ECHOREPLY 4661 0; [x45]]).
  - discriminate.
  - cbn [all_rejected]. split; [vm_compute; discriminate|].
    split; [vm_compute; discriminate|exact I].
Defined.

(** The identifier of a packet is 16 bits wide. *)
Lemma icmp_id_range buffer : 0 <= icmp_id buffer < 65536.
Proof. unfold icmp_id, get16. apply load16_range. Qed.

Lemma on_packet_wide_pid pid timeout x buffer :
  ~ 0 <= pid < 65536 ->
  on_packet pid timeout x buffer <> Return PING_SUCCESS.
Proof.
  intros Hpid. unfold on_packet, bad_id.
  pose proof (icmp_id_range buffer) as Hid.
  destruct (Z.eqb_spec (icmp_id buffer) pid) as [Heq|_]; [lia|].
  cbn [negb].
  repeat match goal with
         | |- (if ?c then _ else _) <> _ => destruct c
         end; discriminate.
Qed.

Lemma wait_loop_wide_pid pid timeout (sels : list select_result) :
  ~ 0 <= pid < 65536 ->
  forall rcvs buf e e',
    wait_loop pid timeout sels rcvs buf e <> Some (PING_SUCCESS, e').
Proof.
  intros Hpid.
  induction sels as [|sel sels IH]; intros rcvs buf e e';
    cbn [wait_loop]; [discriminate|].
  destruct (u32 (select_ret sel) <=? 0).
  - destruct (u32 (select_ret sel) =? 0); discriminate.
  - destruct rcvs as [|rcv rcvs]; [discriminate|].
    rewrite u32_not_neg.
    destruct (on_packet pid timeout (u32 (recvfrom_ret rcv))
                (recvfrom_store rcv buf)) as [rv0|b] eqn:Hp.
    + intros H. injection H as -> _.
      exact (on_packet_wide_pid _ _ _ _ Hpid Hp).
    + apply IH.
Qed.

(** In a process whose id does not fit in 16 bits no packet is taken for
    a reply: the 16-bit identifier field is compared with the whole
    process id, and the function never returns [PING_SUCCESS]. *)
Theorem icmp_ping_addrfd_wide_pid pid seq timeout w e :
  ~ 0 <= pid < 65536 ->
  icmp_ping_addrfd pid seq timeout w <> Some (PING_SUCCESS, e).
Proof.
  intros Hpid. unfold icmp_ping_addrfd.
  destruct (send_loop (sendto_answers w) (errno w)) as [[[rv0|u] e0]|] eqn:Hs.
  - exfalso. exact (send_loop_never_returns _ _ _ _ Hs).
  - apply wait_loop_wide_pid. exact Hpid.
  - discriminate.
Qed.

Lemma icmp_ping_addrfd_wide_pid_witness :
  icmp_ping_addrfd 70000 0 0
    (mk_world 0 [SendtoSent 16] [SelectReady]
       [RecvfromData (icmp_datagram 5 ICMP_ECHOREPLY 70000 0)])
  <> Some (PING_SUCCESS, 0).
Proof.
  apply (icmp_ping_addrfd_wide_pid 70000 0 0).
  lia.
Defined.

(** ** The request on the wire *)

(** Drop the conversions to [uint32_t] that cannot wrap, innermost
    first. *)
Ltac u32_exact :=
  repeat match goal with
         | |- context [u32 ?x] =>
             lazymatch x with
             | context [u32 _] => fail
             | _ => rewrite (u32_small x)
                      by (change (2 ^ 32) with 4294967296; lia)
             end
         end.

(** The ICMP header that [echo_request] sets up. *)
Lemma echo_request_header (pid seq : Z) :
  slice (echo_request pid seq) 0 (Z.to_nat ICMP_MINLEN)
  = put ([x08; x00; x00; x00] ++ bytes16 pid ++ bytes16 seq) off_icmp_cksum
      (bytes16 (icmp_checksum
                  ([x08; x00; x00; x00] ++ bytes16 pid ++ bytes16 seq))).
Proof. reflexivity. Qed.

(** A header whose checksum field holds the checksum computed with the
    field at zero verifies by the receiver's rule. *)
Lemma icmp_header_verifies (t d i0 i1 s0 s1 : byte) :
  let zeroed := [t; d; x00; x00; i0; i1; s0; s1] in
  icmp_checksum (put zeroed off_icmp_cksum (bytes16 (icmp_checksum zeroed)))
  = 0.
Proof.
  intros zeroed.
  pose proof (load16_range t d) as H0. pose proof (load16_range i0 i1) as H2.
  pose proof (load16_range s0 s1) as H3.
  change (2 ^ 16) with 65536 in *.
  assert (HS : checksum_loop zeroed 0
               = load16 t d + load16 i0 i1 + load16 s0 s1).
  { unfold zeroed. cbn [checksum_loop].
    change (load16 x00 x00) with 0.
    u32_exact. lia. }
  pose proof (icmp_checksum_range zeroed) as Hc.
  assert (HSr : 0 <= checksum_loop zeroed 0 < 2 ^ 32)
    by (rewrite HS; change (2 ^ 32) with 4294967296; lia).
  pose proof (icmp_checksum_fold zeroed HSr) as Hfold.
  set (c := icmp_checksum zeroed) in *.
  set (S := checksum_loop zeroed 0) in *.
  change (put zeroed off_icmp_cksum (bytes16 c))
    with [t; d; byte_of_Z (u16 c); byte_of_Z (u16 c / 256); i0; i1; s0; s1].
  assert (Hsum : checksum_loop
                   [t; d; byte_of_Z (u16 c); byte_of_Z (u16 c / 256);
                    i0; i1; s0; s1] 0 = S + c).
  { cbn [checksum_loop].
    rewrite load16_bytes16, (u16_small c) by (change (2 ^ 16) with 65536; lia).
    u32_exact. lia. }
  assert (HS' : 0 <= checksum_loop
                       [t; d; byte_of_Z (u16 c); byte_of_Z (u16 c / 256);
                        i0; i1; s0; s1] 0 < 2 ^ 32)
    by (rewrite Hsum; change (2 ^ 32) with 4294967296; lia).
  rewrite (icmp_checksum_fold _ HS'), Hsum.
  rewrite (fold_with_checksum S c); [reflexivity | | exact Hfold].
  change (2 ^ 32) with 4294967296. lia.
Qed.

(** The request that [icmp_ping_addrfd] sends verifies: the checksum of
    its finished ICMP header is zero. *)
Theorem echo_request_verifies (pid seq : Z) :
  icmp_checksum (slice (echo_request pid seq) 0 (Z.to_nat ICMP_MINLEN)) = 0.
Proof.
  rewrite echo_request_header. unfold bytes16 at 1 2 3 4. cbn [app].
  apply icmp_header_verifies.
Qed.

(** ** A reply behind its IP header *)

Lemma get_app_at (ip l : list byte) (k : Z) :
  0 <= k ->
  get (ip ++ l) (Z.of_nat (List.length ip) + k) = get l k.
Proof.
  intros Hk. unfold get.
  rewrite app_nth2 by lia. f_equal. lia.
Qed.

Lemma put_app_at (ip l data : list byte) (k : Z) :
  0 <= k ->
  put (ip ++ l) (Z.of_nat (List.length ip) + k) data = ip ++ put l k data.
Proof.
  intros Hk. unfold put.
  replace (Z.to_nat (Z.of_nat (List.length ip) + k))
    with (List.length ip + Z.to_nat k)%nat by lia.
  rewrite firstn_app_2, <- Nat.add_assoc, skipn_app.
  rewrite (skipn_all2 ip) by lia.
  replace (List.length ip + (Z.to_nat k + List.length data)
           - List.length ip)%nat
    with (Z.to_nat k + List.length data)%nat by lia.
  rewrite <- app_assoc. reflexivity.
Qed.

Lemma slice_app_at (ip l : list byte) (n : nat) :
  slice (ip ++ l) (Z.of_nat (List.length ip)) n = firstn n l.
Proof.
  unfold slice. rewrite Nat2Z.id, skipn_app, Nat.sub_diag.
  rewrite (skipn_all2 ip) by lia. reflexivity.
Qed.

(** The body on a packet that passes every test. *)
Lemma on_packet_accepts (pid timeout x : Z) (ip rest : list byte)
    (t d c0 c1 i0 i1 s0 s1 : byte) :
  packetp (ip ++ [t; d; c0; c1; i0; i1; s0; s1] ++ rest)
  = Z.of_nat (List.length ip) ->
  Z.of_nat (List.length ip) + ICMP_MINLEN <= x ->
  load16 c0 c1 = icmp_checksum [t; d; x00; x00; i0; i1; s0; s1] ->
  byte_val t = ICMP_ECHO \/ byte_val t = ICMP_ECHOREPLY ->
  load16 i0 i1 = pid ->
  on_packet pid timeout x (ip ++ [t; d; c0; c1; i0; i1; s0; s1] ++ rest)
  = Return PING_SUCCESS.
Proof.
  intros Hp Hx Hc Ht Hid.
  set (buffer := ip ++ [t; d; c0; c1; i0; i1; s0; s1] ++ rest) in *.
  assert (Hz : zero_cksum buffer
               = ip ++ [t; d; x00; x00; i0; i1; s0; s1] ++ rest).
  { unfold zero_cksum. rewrite Hp. unfold buffer.
    rewrite put_app_at by (unfold off_icmp_cksum; lia). reflexivity. }
  assert (Hshort : too_short x buffer = false).
  { unfold too_short. rewrite Hp. apply Z.ltb_ge. lia. }
  assert (Hsum : bad_checksum buffer = false).
  { unfold bad_checksum. rewrite Hz, Hp. unfold buffer at 1.
    unfold get16. rewrite <- Z.add_assoc.
    rewrite !get_app_at by (unfold off_icmp_cksum; lia).
    rewrite slice_app_at.
    change (get ([t; d; c0; c1; i0; i1; s0; s1] ++ rest) off_icmp_cksum)
      with c0.
    change (get ([t; d; c0; c1; i0; i1; s0; s1] ++ rest) (off_icmp_cksum + 1))
      with c1.
    change (firstn (Z.to_nat ICMP_MINLEN)
              ([t; d; x00; x00; i0; i1; s0; s1] ++ rest))
      with [t; d; x00; x00; i0; i1; s0; s1].
    rewrite Hc, Z.eqb_refl. reflexivity. }
  assert (Hty : icmp_type buffer = byte_val t).
  { unfold icmp_type. rewrite Hz, Hp, get_app_at by (unfold off_icmp_type; lia).
    reflexivity. }
  assert (Hi : icmp_id buffer = load16 i0 i1).
  { unfold icmp_id, get16. rewrite Hz, Hp, <- Z.add_assoc.
    rewrite !get_app_at by (unfold off_icmp_id; lia). reflexivity. }
  unfold on_packet, bad_id. rewrite Hshort, Hsum, Hty, Hi, Hid, Z.eqb_refl.
  destruct Ht as [-> | ->]; reflexivity.
Qed.

Lemma packetp_app (ip l : list byte) :
  ip <> [] -> packetp (ip ++ l) = packetp ip.
Proof.
  intros Hip. destruct ip as [|v ip]; [contradiction|]. reflexivity.
Qed.

(** A datagram that fits the buffer overwrites its beginning, and the
    iteration is the body on the result. *)
Lemma wait_loop_received (pid timeout : Z) (sels : list select_result)
    (rcvs : list recvfrom_result) (buf datagram : list byte) (e : Z) :
  (List.length datagram <= 256)%nat ->
  wait_loop pid timeout (SelectReady :: sels)
    (RecvfromData datagram :: rcvs) buf e
  = match on_packet pid timeout (Z.of_nat (List.length datagram))
            (datagram ++ skipn (List.length datagram) buf) with
    | Return rv => Some (rv, e)
    | Goes b => wait_loop pid timeout sels rcvs b e
    end.
Proof.
  intros Hlen. rewrite wait_loop_ready.
  cbn [recvfrom_ret recvfrom_store recvfrom_errno errno_after].
  rewrite (firstn_all2 (n := 256) datagram) by lia.
  rewrite u32_small by (change (2 ^ 32) with 4294967296; lia).
  reflexivity.
Qed.

(** A datagram is taken for the reply, whatever the buffer held before,
    when it fits the buffer, the header length announced in its IP
    header [ip] is the length of [ip], the checksum field of the ICMP
    header that follows holds the checksum of that header computed with
    the field at zero, the type is echo or echo reply, and the
    identifier is the process id. *)
Theorem wait_loop_accepts (pid timeout : Z) (sels : list select_result)
    (rcvs : list recvfrom_result) (buf : list byte) (e : Z)
    (ip tail : list byte) (t d c0 c1 i0 i1 s0 s1 : byte) :
  let datagram := ip ++ [t; d; c0; c1; i0; i1; s0; s1] ++ tail in
  ip <> [] ->
  packetp ip = Z.of_nat (List.length ip) ->
  (List.length datagram <= 256)%nat ->
  load16 c0 c1 = icmp_checksum [t; d; x00; x00; i0; i1; s0; s1] ->
  byte_val t = ICMP_ECHO \/ byte_val t = ICMP_ECHOREPLY ->
  load16 i0 i1 = pid ->
  wait_loop pid timeout (SelectReady :: sels)
    (RecvfromData datagram :: rcvs) buf e
  = Some (PING_SUCCESS, e).
Proof.
  intros datagram Hip Hp Hlen Hc Ht Hid.
  rewrite wait_loop_received by exact Hlen.
  assert (Hstore : datagram ++ skipn (List.length datagram) buf
                   = ip ++ [t; d; c0; c1; i0; i1; s0; s1]
                        ++ (tail ++ skipn (List.length datagram) buf)).
  { unfold datagram. rewrite <- !app_assoc. reflexivity. }
  rewrite Hstore.
  rewrite on_packet_accepts; try assumption.
  - reflexivity.
  - rewrite packetp_app by exact Hip. exact Hp.
  - unfold datagram. rewrite !length_app. cbn [List.length].
    unfold ICMP_MINLEN. lia.
Qed.

Lemma wait_loop_accepts_witness :
  wait_loop 4660 1 [SelectReady]
    [RecvfromData
       ((x45 :: repeat x00 19)
        ++ [x00; x00; byte_of_Z 203; byte_of_Z 237; x34; x12; x00; x00]
        ++ [])]
    (echo_request 4660 0) 0
  = Some (PING_SUCCESS, 0).
Proof.
  apply (wait_loop_accepts 4660 1 [] [] (echo_request 4660 0) 0
           (x45 :: repeat x00 19) []
           x00 x00 (byte_of_Z 203) (byte_of_Z 237) x34 x12 x00 x00).
  - discriminate.
  - reflexivity.
  - cbn. lia.
  - reflexivity.
  - right. reflexivity.
  - reflexivity.
Defined.

(** Sender and receiver agree: the request that [echo_request] builds,
    coming back behind an IP header (as when the host pings itself), is
    taken for the reply by a process whose id fits in 16 bits. *)
Theorem wait_loop_accepts_own_request (pid seq timeout : Z)
    (sels : list select_result) (rcvs : list recvfrom_result)
    (buf : list byte) (e : Z) (ip : list byte) :
  0 <= pid < 65536 ->
  ip <> [] ->
  packetp ip = Z.of_nat (List.length ip) ->
  wait_loop pid timeout (SelectReady :: sels)
    (RecvfromData
       (ip ++ slice (echo_request pid seq) 0 (Z.to_nat ICMP_MINLEN))
     :: rcvs) buf e
  = Some (PING_SUCCESS, e).
Proof.
  intros Hpid Hip Hp.
  pose proof (packetp_range ip) as Hr.
  set (zeroed := [x08; x00; x00; x00;
                  byte_of_Z (u16 pid); byte_of_Z (u16 pid / 256);
                  byte_of_Z (u16 seq); byte_of_Z (u16 seq / 256)]).
  change (slice (echo_request pid seq) 0 (Z.to_nat ICMP_MINLEN))
    with [x08; x00;
          byte_of_Z (u16 (icmp_checksum zeroed));
          byte_of_Z (u16 (icmp_checksum zeroed) / 256);
          byte_of_Z (u16 pid); byte_of_Z (u16 pid / 256);
          byte_of_Z (u16 seq); byte_of_Z (u16 seq / 256)].
  rewrite wait_loop_received by (rewrite length_app; cbn [List.length]; lia).
  rewrite <- app_assoc.
  rewrite on_packet_accepts.
  - reflexivity.
  - rewrite packetp_app by exact Hip. exact Hp.
  - rewrite length_app. cbn [List.length]. unfold ICMP_MINLEN. lia.
  - rewrite load16_bytes16. apply u16_small.
    apply (icmp_checksum_range _).
  - left. reflexivity.
  - rewrite load16_bytes16. apply u16_small. exact Hpid.
Qed.

Lemma wait_loop_accepts_own_request_witness :
  wait_loop 4660 1 [SelectReady]
    [RecvfromData
       ((x45 :: repeat x00 19)
        ++ slice (echo_request 4660 7) 0 (Z.to_nat ICMP_MINLEN))]
    (echo_request 4660 7) 0
  = Some (PING_SUCCESS, 0).
Proof.
  apply (wait_loop_accepts_own_request 4660 7 1 [] [] (echo_request 4660 7) 0
           (x45 :: repeat x00 19)).
  - lia.
  - discriminate.
  - reflexivity.
Defined.

(** ** Resolver answers *)

Lemma gethostbyname_loop_answer (hostname : string) (sin : sockaddr_in)
    (ans : hostent_result) (rest : list hostent_result) :
  ans <> HostError TRY_AGAIN ->
  forall n calls,
  exists calls',
    gethostbyname_loop hostname sin
      (repeat (HostError TRY_AGAIN) n ++ ans :: rest) calls
    = Some
        match ans with
        | Hostent a =>
            mk_getaddr_result 0
              (mk_sockaddr_in (sin_family sin) (sin_port sin) a) calls'
        | HostError h =>
            mk_getaddr_result
              (if (h =? HOST_NOT_FOUND) || (h =? NO_ADDRESS)
                  || (h =? NO_RECOVERY)
               then PING_HOST_NOT_FOUND else -1)
              sin calls'
        end.
Proof.
  intros Hans. induction n as [|n IH]; intros calls.
  - cbn [repeat app gethostbyname_loop].
    destruct ans as [a|h].
    + eexists. reflexivity.
    + destruct (Z.eqb_spec h TRY_AGAIN) as [->|_]; [contradiction|].
      destruct ((h =? HOST_NOT_FOUND) || (h =? NO_ADDRESS)
                || (h =? NO_RECOVERY));
        eexists; reflexivity.
  - cbn [repeat app gethostbyname_loop].
    change (TRY_AGAIN =? TRY_AGAIN) with true. cbv iota.
    apply IH.
Qed.

(** A name that is not taken for a literal address is resolved: however
    often the resolver says [TRY_AGAIN], the call returns what its first
    other answer gives: 0 and the address of the host entry,
    [PING_HOST_NOT_FOUND] for [HOST_NOT_FOUND], [NO_ADDRESS] and
    [NO_RECOVERY] with the address left at zero, -1 for any other
    [h_errno].  The family is [AF_INET] and the port 0 in each case. *)
Theorem icmp_ping_getaddr_answer
    (inet_pton : string -> option in_addr) (hostname : string)
    (n : nat) (ans : hostent_result) (rest : list hostent_result) :
  isdigit (first_char hostname) = false \/ inet_pton hostname = None ->
  ans <> HostError TRY_AGAIN ->
  exists r,
    icmp_ping_getaddr inet_pton hostname
      (repeat (HostError TRY_AGAIN) n ++ ans :: rest) = Some r
    /\ sin_family (ga_sin r) = AF_INET
    /\ sin_port (ga_sin r) = 0
    /\ match ans with
       | Hostent a => ga_ret r = 0 /\ sin_addr (ga_sin r) = a
       | HostError h =>
           ga_ret r
           = (if (h =? HOST_NOT_FOUND) || (h =? NO_ADDRESS)
                 || (h =? NO_RECOVERY)
              then PING_HOST_NOT_FOUND else -1)
           /\ sin_addr (ga_sin r) = [x00; x00; x00; x00]
       end.
Proof.
  intros Hlit Hans. unfold icmp_ping_getaddr.
  set (sin := mk_sockaddr_in AF_INET 0 [x00; x00; x00; x00]).
  assert (Hloop : forall calls,
            exists r,
              gethostbyname_loop hostname sin
                (repeat (HostError TRY_AGAIN) n ++ ans :: rest) calls
              = Some r
              /\ sin_family (ga_sin r) = AF_INET
              /\ sin_port (ga_sin r) = 0
              /\ match ans with
                 | Hostent a => ga_ret r = 0 /\ sin_addr (ga_sin r) = a
                 | HostError h =>
                     ga_ret r
                     = (if (h =? HOST_NOT_FOUND) || (h =? NO_ADDRESS)
                           || (h =? NO_RECOVERY)
                        then PING_HOST_NOT_FOUND else -1)
                     /\ sin_addr (ga_sin r) = [x00; x00; x00; x00]
                 end).
  { intros calls.
    destruct (gethostbyname_loop_answer hostname sin ans rest Hans n calls)
      as [calls' Hr].
    rewrite Hr. eexists. split; [reflexivity|].
    destruct ans as [a|h]; cbn; auto. }
  destruct (isdigit (first_char hostname)).
  - destruct Hlit as [Hd|Hn]; [discriminate Hd|]. rewrite Hn. apply Hloop.
  - apply Hloop.
Qed.

Lemma icmp_ping_getaddr_answer_witness :
  exists r,
    icmp_ping_getaddr inet_pton4 "tiebreaker"
      (repeat (HostError TRY_AGAIN) 2
       ++ Hostent [byte_of_Z 10; x00; x00; x01] :: []) = Some r
    /\ sin_family (ga_sin r) = AF_INET
    /\ sin_port (ga_sin r) = 0
    /\ ga_ret r = 0 /\ sin_addr (ga_sin r) = [byte_of_Z 10; x00; x00; x01].
Proof.
  apply (icmp_ping_getaddr_answer inet_pton4 "tiebreaker" 2
           (Hostent [byte_of_Z 10; x00; x00; x01]) []).
  - left. reflexivity.
  - discriminate.
Defined.

(** ** The calls that resolve and open a socket *)

Lemma with_errno_same (w : world) : with_errno (errno w) w = w.
Proof. destruct w. reflexivity. Qed.

(** [icmp_ping_hostfd] returns -1 only when [icmp_ping_getaddr] has
    returned -1, before any call on the socket.  The [errno] that goes
    with it is the one the resolver's library calls left, and the whole
    result is the same whatever the socket, the sequence number, the
    timeout and the answers of the network would have been: a -1 of this
    function never reports a failure of [sendto], [select] or
    [recvfrom]. *)
Theorem icmp_ping_hostfd_errno_resolver
    (inet_pton : string -> option in_addr) (pid : Z) (hostname : string)
    (seq timeout : Z) (answers : list hostent_result)
    (resolver_errno : option Z) (w : world) (e : Z) :
  icmp_ping_hostfd inet_pton pid hostname seq timeout answers
    resolver_errno w
  = Some (PING_ERRNO, e) ->
  (exists r,
     icmp_ping_getaddr inet_pton hostname answers = Some r
     /\ ga_ret r = -1)
  /\ e = errno_after resolver_errno (errno w)
  /\ forall pid' seq' timeout' w',
       errno w' = errno w ->
       icmp_ping_hostfd inet_pton pid' hostname seq' timeout' answers
         resolver_errno w'
       = Some (PING_ERRNO, e).
Proof.
  unfold icmp_ping_hostfd.
  destruct (icmp_ping_getaddr inet_pton hostname answers) as [r|];
    [|discriminate].
  cbv zeta. destruct (Z.eqb_spec (ga_ret r) 0) as [H0|Hne]; cbn [negb].
  - intros H. exfalso.
    exact (icmp_ping_addrfd_never_errno _ _ _ _ _ _ H eq_refl).
  - intros H. injection H as Hrv <-. split; [|split].
    + exists r. split; [reflexivity | exact Hrv].
    + reflexivity.
    + intros pid' seq' timeout' w' Hw. rewrite Hw, Hrv. reflexivity.
Qed.

(** The resolver fails with [NETDB_INTERNAL] and leaves [ECONNREFUSED]:
    that is the [errno] of the -1, with or without a reply waiting. *)
Lemma icmp_ping_hostfd_errno_resolver_witness :
  (exists r,
     icmp_ping_getaddr inet_pton4 "tiebreaker" [HostError (-1)] = Some r
     /\ ga_ret r = -1)
  /\ 111 = errno_after (Some 111) (errno (mk_world 17 [] [] []))
  /\ forall pid' seq' timeout' w',
       errno w' = errno (mk_world 17 [] [] []) ->
       icmp_ping_hostfd inet_pton4 pid' "tiebreaker" seq' timeout'
         [HostError (-1)] (Some 111) w'
       = Some (PING_ERRNO, 111).
Proof.
  apply (icmp_ping_hostfd_errno_resolver inet_pton4 4660 "tiebreaker" 0 1
           [HostError (-1)] (Some 111) (mk_world 17 [] [] []) 111).
  reflexivity.
Defined.

Lemma s32_u32 (z : Z) : in_int z -> s32 (u32 z) = z.
Proof.
  unfold in_int, INT_MIN, INT_MAX, s32, u32, wraps, wrapu. intros H.
  rewrite Z.add_mod_idemp_l by (change (2 ^ 32) with 4294967296; lia).
  change (2 ^ 32) with 4294967296. change (2 ^ (32 - 1)) with 2147483648.
  rewrite Z.mod_small; lia.
Qed.

Lemma gethostbyname_loop_returns (hostname : string) (sin : sockaddr_in)
    (answers : list hostent_result) :
  forall calls r,
    gethostbyname_loop hostname sin answers calls = Some r ->
    -1 <= ga_ret r <= 7.
Proof.
  induction answers as [|ans rest IH]; intros calls r;
    cbn [gethostbyname_loop]; [discriminate|].
  destruct ans as [a|h].
  - intros H. injection H as <-. cbn. lia.
  - destruct (h =? TRY_AGAIN); [apply IH|].
    destruct ((h =? HOST_NOT_FOUND) || (h =? NO_ADDRESS)
              || (h =? NO_RECOVERY));
      intros H; injection H as <-; cbn; unfold PING_HOST_NOT_FOUND; lia.
Qed.

Lemma icmp_ping_getaddr_returns
    (inet_pton : string -> option in_addr) (hostname : string)
    (answers : list hostent_result) (r : getaddr_result) :
  icmp_ping_getaddr inet_pton hostname answers = Some r ->
  -1 <= ga_ret r <= 7.
Proof.
  unfold icmp_ping_getaddr.
  destruct (isdigit (first_char hostname));
    [|apply gethostbyname_loop_returns].
  destruct (inet_pton hostname); [|apply gethostbyname_loop_returns].
  intros H. injection H as <-. cbn. lia.
Qed.

Lemma icmp_ping_hostfd_returns
    (inet_pton : string -> option in_addr) (pid : Z) (hostname : string)
    (seq timeout : Z) (answers : list hostent_result)
    (resolver_errno : option Z) (w : world) rv e :
  icmp_ping_hostfd inet_pton pid hostname seq timeout answers
    resolver_errno w
  = Some (rv, e) ->
  -1 <= rv <= 7.
Proof.
  unfold icmp_ping_hostfd.
  destruct (icmp_ping_getaddr inet_pton hostname answers) as [r|] eqn:Hg;
    [|discriminate].
  apply icmp_ping_getaddr_returns in Hg. cbv zeta.
  destruct (ga_ret r =? 0); cbn [negb].
  - unfold icmp_ping_addrfd. cbn [with_errno sendto_answers errno].
    destruct (send_loop (sendto_answers w)
                (errno_after resolver_errno (errno w)))
      as [[[rv0|u] e0]|] eqn:Hs.
    + exfalso. exact (send_loop_never_returns _ _ _ _ Hs).
    + intros H. apply wait_loop_returns in H. lia.
    + discriminate.
  - intros H. injection H as <- _. exact Hg.
Qed.

(** With a socket, [icmp_ping_host] is [icmp_ping_hostfd]: the value
    passes through the unsigned [rv] unchanged, and [errno] is the one
    the ping left, whatever [close] does to it. *)
Theorem icmp_ping_host_is_hostfd
    (inet_pton : string -> option in_addr) (pid : Z) (hostname : string)
    (seq timeout : Z) (fd : nat) (answers : list hostent_result)
    (resolver_errno close_errno : option Z) (w : world) (rv e : Z) :
  Z.of_nat fd <= INT_MAX ->
  in_int e ->
  icmp_ping_hostfd inet_pton pid hostname seq timeout answers
    resolver_errno w
  = Some (rv, e) ->
  icmp_ping_host inet_pton pid hostname seq timeout (SocketFd fd) answers
    resolver_errno close_errno w
  = Some (rv, e).
Proof.
  intros Hfd He H. unfold icmp_ping_host.
  cbn [socket_errno errno_after icmp_socket].
  rewrite with_errno_same, H.
  unfold INT_MAX in Hfd.
  rewrite (u32_small (Z.of_nat fd))
    by (change (2 ^ 32) with 4294967296; lia).
  change (u32 (-1)) with 4294967295.
  destruct (Z.eqb_spec (Z.of_nat fd) 4294967295) as [Heq|_]; [lia|].
  pose proof (icmp_ping_hostfd_returns _ _ _ _ _ _ _ _ _ _ H) as Hrv.
  rewrite !s32_u32 by (try exact He; unfold in_int, INT_MIN, INT_MAX; lia).
  reflexivity.
Qed.

Lemma icmp_ping_host_is_hostfd_witness :
  icmp_ping_host inet_pton4 4660 "10.0.0.1" 0 1 (SocketFd 3) [] None
    (Some 9) (mk_world 0 [SendtoSent 16] [SelectTimeout] [])
  = Some (PING_TIMEOUT, 0).
Proof.
  apply (icmp_ping_host_is_hostfd inet_pton4 4660 "10.0.0.1" 0 1 3 []
           None (Some 9) (mk_world 0 [SendtoSent 16] [SelectTimeout] [])).
  - unfold INT_MAX. lia.
  - unfold in_int, INT_MIN, INT_MAX. lia.
  - reflexivity.
Defined.

(** With a socket, [icmp_ping_addr] is [icmp_ping_addrfd], and [errno]
    is the one the ping left, whatever [close] does to it. *)
Theorem icmp_ping_addr_is_addrfd (pid seq timeout : Z) (fd : nat)
    (close_errno : option Z) (w : world) :
  Z.of_nat fd <= INT_MAX ->
  icmp_ping_addr pid seq timeout (SocketFd fd) close_errno w
  = icmp_ping_addrfd pid seq timeout w.
Proof.
  intros Hfd. unfold icmp_ping_addr.
  cbn [socket_errno errno_after icmp_socket].
  rewrite with_errno_same.
  rewrite s32_in_int by (unfold in_int, INT_MIN, INT_MAX in *; lia).
  destruct (Z.ltb_spec (Z.of_nat fd) 0) as [Hneg|_]; [lia|].
  destruct (icmp_ping_addrfd pid seq timeout w) as [[rv e]|]; reflexivity.
Qed.

Lemma icmp_ping_addr_is_addrfd_witness :
  icmp_ping_addr 4660 0 1 (SocketFd 3) (Some 9)
    (mk_world 0 [SendtoSent 16] [SelectTimeout] [])
  = icmp_ping_addrfd 4660 0 1
      (mk_world 0 [SendtoSent 16] [SelectTimeout] []).
Proof.
  apply (icmp_ping_addr_is_addrfd 4660 0 1 3 (Some 9)).
  unfold INT_MAX. lia.
Defined.

End PingMore.

(* ================================================================== *)
(** * More on the thresholds and the voter *)
(* ================================================================== *)

Module VoterMore.

Import Ping.
Import NetTie.
Import NetTieFacts.
Import VoterFacts.

(** ** What get_interval_tko publishes *)

(** Everything about the values published for an accepted
    configuration. *)
Lemma get_interval_tko_values (fo i : Z) (g : globals) :
  2000000 <= fo -> 1 <= i ->
  in_int (fo + 3 * i) -> in_int (4 * i) ->
  exists g' log,
    get_interval_tko fo i g = Some (0, g', log)
    /\ ping_interval g' = 4 * i / 3
    /\ i <= ping_interval g'
    /\ 0 <= declare_offline g' < declare_online g'
    /\ declare_online g' <= fo / i + 3
    /\ fo <= declare_online g' * ping_interval g'
    /\ net_vote_alive g' = net_vote_alive g
    /\ tb_ip g' = tb_ip g
    /\ net_thread g' = net_thread g
    /\ totem_timeout g' = totem_timeout g.
Proof.
  intros Hfo Hi Hup H4.
  rewrite (get_interval_tko_accepts fo i g Hfo Hi Hup H4).
  eexists. eexists. split; [reflexivity|].
  unfold ping_interval, declare_offline, declare_online, net_vote_alive,
    tb_ip, net_thread, totem_timeout.
  unfold in_int, INT_MIN, INT_MAX in *.
  assert (Htko : 0 <= fo / i) by (apply Z.div_pos; lia).
  destruct (half_window (fo / i) Htko) as [Hh0 Hh1].
  set (h := Z.quot (Z.land (fo / i) (Z.lnot 1) - 1) 2) in *.
  set (i' := 4 * i / 3).
  assert (Hi' : i <= i' /\ 1 <= i' /\ 3 * i' <= 4 * i).
  { subst i'. split; [|split].
    - apply Z.div_le_lower_bound; lia.
    - apply Z.div_le_lower_bound; lia.
    - apply Z.mul_div_le; lia. }
  pose proof (Z.mul_div_le fo i ltac:(lia)) as Hq.
  pose proof (Z.mod_pos_bound fo i ltac:(lia)) as Hm.
  pose proof (Z.div_mod fo i ltac:(lia)) as Hd.
  set (off := i * h / i'). set (on := (fo + 3 * i) / i').
  assert (Hoff : 0 <= off /\ off * i' < fo).
  { assert (Hih : 0 <= i * h) by (apply Z.mul_nonneg_nonneg; lia).
    assert (Hih' : 2 * (i * h) < fo) by nia.
    subst off. split; [apply Z.div_pos; lia|].
    pose proof (Z.mul_div_le (i * h) i' ltac:(lia)). lia. }
  assert (Hon : fo <= on * i' /\ on <= fo / i + 3).
  { subst on. split.
    - pose proof (Z.div_mod (fo + 3 * i) i' ltac:(lia)).
      pose proof (Z.mod_pos_bound (fo + 3 * i) i' ltac:(lia)). lia.
    - rewrite <- (Z.div_add fo 3 i) by lia.
      apply Z.div_le_compat_l; lia. }
  assert (Hlt : off < on) by nia.
  repeat split; try reflexivity; lia.
Qed.

(** For an accepted configuration the new interval is the old one
    stretched by a third, never shorter; it takes more hits to go online
    than misses to go offline; and the vote, the target and the thread
    id are left alone. *)
Theorem get_interval_tko_publishes (fo i : Z) (g : globals) :
  2000000 <= fo -> 1 <= i ->
  in_int (fo + 3 * i) -> in_int (4 * i) ->
  exists g' log,
    get_interval_tko fo i g = Some (0, g', log)
    /\ ping_interval g' = 4 * i / 3
    /\ i <= ping_interval g'
    /\ 0 <= declare_offline g' < declare_online g'
    /\ declare_online g' <= fo / i + 3
    /\ net_vote_alive g' = net_vote_alive g
    /\ tb_ip g' = tb_ip g
    /\ net_thread g' = net_thread g.
Proof.
  intros Hfo Hi Hup H4.
  destruct (get_interval_tko_values fo i g Hfo Hi Hup H4)
    as [g' [log [Heq [Hint [Hslow [Hord [Hon [_ [Hv [Hip [Ht _]]]]]]]]]]].
  exists g', log. repeat split; try assumption; lia.
Qed.

Lemma get_interval_tko_publishes_witness :
  exists g' log,
    get_interval_tko 10000000 1000000 initial_globals = Some (0, g', log)
    /\ ping_interval g' = 4 * 1000000 / 3
    /\ 1000000 <= ping_interval g'
    /\ 0 <= declare_offline g' < declare_online g'
    /\ declare_online g' <= 10000000 / 1000000 + 3
    /\ net_vote_alive g' = net_vote_alive initial_globals
    /\ tb_ip g' = tb_ip initial_globals
    /\ net_thread g' = net_thread initial_globals.
Proof.
  apply (get_interval_tko_publishes 10000000 1000000 initial_globals).
  - lia.
  - lia.
  - in_range.
  - in_range.
Defined.

Local Arguments cycle : simpl never.

(** ** Hysteresis in general *)

Ltac undisturbed ip Hlen :=
  cbn [thread_loop run_globals run_locals run_votes run_log];
  match goal with
  | |- context [cycle (mk_cycle_input ?r ?e None) ?g ?l] =>
      rewrite (cycle_undisturbed r e g l ip eq_refl Hlen)
  end.

(** While the vote is alive, successful pings keep it so. *)
Lemma alive_successes (ip : string) (interval on off thread totem : Z)
    (inputs : list cycle_input) :
  (String.length ip < target_size)%nat ->
  Forall quiet_success inputs ->
  forall l votes log,
    option_map run_votes
      (thread_loop inputs
         (mk_run (mk_globals interval on off thread 1 (Some ip) totem)
            l votes log false))
    = Some (votes ++ repeat 1 (List.length inputs)).
Proof.
  intros Hlen Hall. induction Hall as [|inp inputs [Hr Hq] _ IH];
    intros l votes log.
  - cbn. rewrite app_nil_r. reflexivity.
  - destruct inp as [r e d]. cbn in Hr, Hq. subst r d.
    undisturbed ip Hlen. cbn.
    rewrite IH, <- app_assoc. reflexivity.
Qed.

(** While the vote is dead, failed pings keep it so. *)
Lemma dead_failures (ip : string) (interval on off thread totem : Z)
    (inputs : list cycle_input) :
  (String.length ip < target_size)%nat ->
  Forall quiet_failure inputs ->
  forall l votes log,
    option_map run_votes
      (thread_loop inputs
         (mk_run (mk_globals interval on off thread 0 (Some ip) totem)
            l votes log false))
    = Some (votes ++ repeat 0 (List.length inputs)).
Proof.
  intros Hlen Hall. induction Hall as [|inp inputs [Hr Hq] _ IH];
    intros l votes log.
  - cbn. rewrite app_nil_r. reflexivity.
  - destruct inp as [r e d]. cbn in Hr, Hq. subst d.
    apply Z.eqb_neq in Hr.
    undisturbed ip Hlen. cbn. rewrite Hr. cbn.
    rewrite IH, <- app_assoc. reflexivity.
Qed.

Lemma dead_successes (ip : string) (interval on off thread totem : Z)
    (inputs : list cycle_input) :
  (String.length ip < target_size)%nat ->
  on <= 127 ->
  Forall quiet_success inputs ->
  forall h m votes log,
    0 <= h < on ->
    option_map run_votes
      (thread_loop inputs
         (mk_run (mk_globals interval on off thread 0 (Some ip) totem)
            (mk_locals h m) votes log false))
    = Some (votes
            ++ repeat 0 (Nat.min (List.length inputs) (Z.to_nat (on - 1 - h)))
            ++ repeat 1 (List.length inputs - Z.to_nat (on - 1 - h))).
Proof.
  intros Hlen Hon Hall. induction Hall as [|inp inputs [Hr Hq] Hall IH];
    intros h m votes log Hh.
  - cbn. rewrite app_nil_r. reflexivity.
  - destruct inp as [r e d]. cbn in Hr, Hq. subst r d.
    undisturbed ip Hlen.
    cbn [net_vote_alive declare_online declare_offline ping_interval hits
           misses Z.eqb].
    change (s8 0) with 0. cbn [Z.eqb negb andb].
    rewrite (s8_small (h + 1)) by lia. rewrite (s8_small on) by lia.
    destruct (Z.ltb_spec (h + 1) on) as [Hlt|Hge].
    + cbn [set_vote net_vote_alive ping_interval declare_online
             declare_offline net_thread tb_ip totem_timeout].
      rewrite (IH (h + 1) 0) by lia.
      f_equal. rewrite <- app_assoc. f_equal.
      cbn [List.length].
      replace (Z.to_nat (on - 1 - h)) with (S (Z.to_nat (on - 1 - (h + 1))))
        by lia.
      cbn [Nat.min repeat Nat.sub app]. reflexivity.
    + cbn [set_vote net_vote_alive ping_interval declare_online
             declare_offline net_thread tb_ip totem_timeout].
      rewrite (alive_successes ip interval on off thread totem inputs
                 Hlen Hall).
      f_equal. rewrite <- app_assoc. f_equal.
      replace (Z.to_nat (on - 1 - h)) with 0%nat by lia.
      rewrite Nat.min_0_r, Nat.sub_0_r. reflexivity.
Qed.

(** From the start of the thread, with [declare_online] between 1 and
    127, consecutive successful pings store the vote 0 as long as there
    have been fewer than [declare_online] of them and 1 from then on. *)
Theorem voter_online_threshold (ip : string)
    (interval on off thread totem : Z) (inputs : list cycle_input) :
  (String.length ip < target_size)%nat ->
  1 <= on <= 127 ->
  Forall quiet_success inputs ->
  option_map run_votes
    (net_quorum_thread inputs
       (mk_globals interval on off thread 0 (Some ip) totem))
  = Some (repeat 0 (Nat.min (List.length inputs) (Z.to_nat (on - 1)))
          ++ repeat 1 (List.length inputs - Z.to_nat (on - 1))).
Proof.
  intros Hlen Hon Hall. unfold net_quorum_thread, initial_locals.
  rewrite (dead_successes ip interval on off thread totem inputs Hlen
             ltac:(lia) Hall 0 0 [] []) by lia.
  rewrite Z.sub_0_r. reflexivity.
Qed.

Lemma voter_online_threshold_witness :
  option_map run_votes
    (net_quorum_thread (repeat (mk_cycle_input 0 0 None) 11)
       (mk_globals 1333333 9 3 1 0 (Some "10.0.0.1"%string) 0))
  = Some (repeat 0 8 ++ repeat 1 3).
Proof.
  apply (voter_online_threshold "10.0.0.1" 1333333 9 3 1 0
           (repeat (mk_cycle_input 0 0 None) 11)).
  - unfold target_size. cbn. lia.
  - lia.
  - repeat constructor.
Defined.

Lemma alive_failures (ip : string) (interval on off thread totem : Z)
    (inputs : list cycle_input) :
  (String.length ip < target_size)%nat ->
  off <= 127 ->
  Forall quiet_failure inputs ->
  forall h m votes log,
    0 <= m < off ->
    option_map run_votes
      (thread_loop inputs
         (mk_run (mk_globals interval on off thread 1 (Some ip) totem)
            (mk_locals h m) votes log false))
    = Some (votes
            ++ repeat 1 (Nat.min (List.length inputs) (Z.to_nat (off - 1 - m)))
            ++ repeat 0 (List.length inputs - Z.to_nat (off - 1 - m))).
Proof.
  intros Hlen Hoff Hall. induction Hall as [|inp inputs [Hr Hq] Hall IH];
    intros h m votes log Hm.
  - cbn. rewrite app_nil_r. reflexivity.
  - destruct inp as [r e d]. cbn in Hr, Hq. subst d.
    apply Z.eqb_neq in Hr.
    undisturbed ip Hlen.
    cbn [net_vote_alive declare_online declare_offline ping_interval hits
           misses].
    rewrite Hr. change (s8 1) with 1. cbn [Z.eqb negb andb].
    rewrite (s8_small (m + 1)) by lia. rewrite (s8_small off) by lia.
    destruct (Z.ltb_spec (m + 1) off) as [Hlt|Hge].
    + cbn [set_vote net_vote_alive ping_interval declare_online
             declare_offline net_thread tb_ip totem_timeout].
      rewrite (IH 0 (m + 1)) by lia.
      f_equal. rewrite <- app_assoc. f_equal.
      cbn [List.length].
      replace (Z.to_nat (off - 1 - m)) with (S (Z.to_nat (off - 1 - (m + 1))))
        by lia.
      cbn [Nat.min repeat Nat.sub app]. reflexivity.
    + cbn [set_vote net_vote_alive ping_interval declare_online
             declare_offline net_thread tb_ip totem_timeout].
      rewrite (dead_failures ip interval on off thread totem inputs Hlen Hall).
      f_equal. rewrite <- app_assoc. f_equal.
      replace (Z.to_nat (off - 1 - m)) with 0%nat by lia.
      rewrite Nat.min_0_r, Nat.sub_0_r. reflexivity.
Qed.

(** While the vote is alive and the last ping succeeded ([misses] is 0),
    with [declare_offline] between 1 and 127, consecutive failed pings
    of whatever kind store the vote 1 as long as there have been fewer
    than [declare_offline] of them and 0 from then on. *)
Theorem voter_offline_threshold (ip : string)
    (interval on off thread totem h : Z) (votes : list Z)
    (log : list log_msg) (inputs : list cycle_input) :
  (String.length ip < target_size)%nat ->
  1 <= off <= 127 ->
  Forall quiet_failure inputs ->
  option_map run_votes
    (thread_loop inputs
       (mk_run (mk_globals interval on off thread 1 (Some ip) totem)
          (mk_locals h 0) votes log false))
  = Some (votes
          ++ repeat 1 (Nat.min (List.length inputs) (Z.to_nat (off - 1)))
          ++ repeat 0 (List.length inputs - Z.to_nat (off - 1))).
Proof.
  intros Hlen Hoff Hall.
  rewrite (alive_failures ip interval on off thread totem inputs Hlen
             ltac:(lia) Hall h 0 votes log) by lia.
  rewrite Z.sub_0_r. reflexivity.
Qed.

Lemma voter_offline_threshold_witness :
  option_map run_votes
    (thread_loop
       [mk_cycle_input PING_TIMEOUT 110 None;
        mk_cycle_input PING_HOST_UNREACH 113 None;
        mk_cycle_input PING_INVALID_ID 0 None;
        mk_cycle_input PING_TIMEOUT 110 None]
       (mk_run (mk_globals 1333333 9 3 1 1 (Some "10.0.0.1"%string) 0)
          (mk_locals 9 0) [0; 1] [] false))
  = Some ([0; 1] ++ repeat 1 2 ++ repeat 0 2).
Proof.
  apply (voter_offline_threshold "10.0.0.1" 1333333 9 3 1 0 9 [0; 1] []).
  - unfold target_size. cbn. lia.
  - lia.
  - repeat constructor; discriminate.
Defined.

(** ** Thresholds that do not fit the thread's [char] *)

(** The thread keeps its copy of [declare_online] in a [char].  When the
    copy is 1 or less, as it is for every published value from 128 to
    255, the first successful ping declares the tiebreaker online. *)
Theorem voter_online_at_once (ip : string)
    (interval on off thread totem : Z) (inputs : list cycle_input) :
  (String.length ip < target_size)%nat ->
  s8 on <= 1 ->
  Forall quiet_success inputs ->
  option_map run_votes
    (net_quorum_thread inputs
       (mk_globals interval on off thread 0 (Some ip) totem))
  = Some (repeat 1 (List.length inputs)).
Proof.
  intros Hlen Hon Hall. unfold net_quorum_thread, initial_locals.
  destruct Hall as [|inp inputs [Hr Hq] Hall]; [reflexivity|].
  destruct inp as [r e d]. cbn in Hr, Hq. subst r d.
  undisturbed ip Hlen.
  cbn [net_vote_alive declare_online declare_offline ping_interval hits
         misses Z.eqb].
  change (s8 0) with 0. cbn [Z.eqb negb andb Z.add].
  change (s8 1) with 1.
  destruct (Z.ltb_spec 1 (s8 on)) as [Hlt|_]; [lia|].
  cbn [set_vote net_vote_alive ping_interval declare_online
         declare_offline net_thread tb_ip totem_timeout].
  rewrite (alive_successes ip interval on off thread totem inputs Hlen Hall).
  reflexivity.
Qed.

(** A token timeout of 60 s with a ping interval of 250 ms, both within
    what [qnet] accepts, publishes [declare_online = 182]. *)
Lemma voter_online_at_once_witness :
  option_map (fun r => declare_online (init_globals r))
    (net_tiebreaker_init quiet_log (Some "10.0.0.1"%string) 60000000 250000
       initial_globals) = Some 182
  /\ option_map run_votes
       (net_quorum_thread [mk_cycle_input 0 0 None; mk_cycle_input 0 0 None]
          (mk_globals 333333 182 89 0 0 (Some "10.0.0.1"%string) 0))
     = Some (repeat 1 2).
Proof.
  split; [reflexivity|].
  apply (voter_online_at_once "10.0.0.1" 333333 182 89 0 0
           [mk_cycle_input 0 0 None; mk_cycle_input 0 0 None]).
  - unfold target_size. cbn. lia.
  - vm_compute. discriminate.
  - repeat constructor.
Defined.

(** ** What a run depends on *)

(** The state of a run without its log. *)
Lemma cycle_same_outcome (a b : cycle_input) (g : globals) (l : locals) :
  same_outcome a b ->
  match cycle a g l, cycle b g l with
  | None, None => True
  | Some (Exited ga), Some (Exited gb) => ga = gb
  | Some (Restarted ga la), Some (Restarted gb lb) => ga = gb /\ la = lb
  | Some (Voted ga la _ ia), Some (Voted gb lb _ ib) =>
      ga = gb /\ la = lb /\ ia = ib
  | _, _ => False
  end.
Proof.
  intros [Hr Hd]. unfold cycle. rewrite <- Hd.
  assert (Hz : (ping_ret a =? 0) = (ping_ret b =? 0)).
  { destruct (Z.eqb_spec (ping_ret a) 0) as [Ha|Ha];
      destruct (Z.eqb_spec (ping_ret b) 0) as [Hb|Hb]; tauto. }
  rewrite <- Hz.
  destruct (tb_ip g) as [ip|]; [|reflexivity].
  destruct (target_size <=? String.length ip)%nat; [exact I|].
  destruct (ping_ret a =? 0);
    (destruct (interfere (during_ping a) g) as [g'|]; [|exact I]);
    (destruct (tb_ip g') as [ip'|]; [|exact I]);
    repeat match goal with
           | |- context [if ?c then _ else _] => destruct c
           end; auto.
Qed.

(** The kind of failure plays no part: two sequences of iterations that
    agree on which pings succeeded and on the reconfigurations leave the
    same globals and counters, store the same votes and end the loop
    alike.  Only the log can differ. *)
Theorem thread_loop_same_outcome (xs ys : list cycle_input) :
  Forall2 same_outcome xs ys ->
  forall g l votes logx logy ex,
    match thread_loop xs (mk_run g l votes logx ex),
          thread_loop ys (mk_run g l votes logy ex) with
    | None, None => True
    | Some rx, Some ry =>
        run_globals rx = run_globals ry
        /\ run_locals rx = run_locals ry
        /\ run_votes rx = run_votes ry
        /\ run_exited rx = run_exited ry
    | _, _ => False
    end.
Proof.
  induction 1 as [|a b xs ys Hab _ IH]; intros g l votes logx logy ex.
  - cbn. auto.
  - cbn [thread_loop run_globals run_locals run_votes run_log].
    pose proof (cycle_same_outcome a b g l Hab) as Hc.
    destruct (cycle a g l) as [[ga|ga la|ga la loga ia]|];
      destruct (cycle b g l) as [[gb|gb lb|gb lb logb ib]|];
      try contradiction; try exact I.
    + subst gb. cbn. auto.
    + destruct Hc as [<- <-]. apply IH.
    + destruct Hc as [<- [<- <-]]. apply IH.
Qed.

Lemma thread_loop_same_outcome_witness :
  match thread_loop
          [mk_cycle_input PING_TIMEOUT 110 None; mk_cycle_input 0 0 None]
          (mk_run (mk_globals 1333333 9 1 1 1 (Some "10.0.0.1"%string) 0)
             (mk_locals 9 0) [] [] false),
        thread_loop
          [mk_cycle_input PING_HOST_UNREACH 113 None; mk_cycle_input 0 5 None]
          (mk_run (mk_globals 1333333 9 1 1 1 (Some "10.0.0.1"%string) 0)
             (mk_locals 9 0) [] [] false) with
  | None, None => True
  | Some rx, Some ry =>
      run_globals rx = run_globals ry
      /\ run_locals rx = run_locals ry
      /\ run_votes rx = run_votes ry
      /\ run_exited rx = run_exited ry
  | _, _ => False
  end.
Proof.
  apply (thread_loop_same_outcome
           [mk_cycle_input PING_TIMEOUT 110 None; mk_cycle_input 0 0 None]
           [mk_cycle_input PING_HOST_UNREACH 113 None;
            mk_cycle_input 0 5 None]).
  constructor; [|constructor; [|constructor]]; unfold same_outcome; cbn.
  - split; [split; intros H; discriminate H | reflexivity].
  - split; [split; intros _; reflexivity | reflexivity].
Defined.

(** ** The vote *)

(** The vote that an iteration stores, by the vote it found and the
    outcome of the ping. *)
Lemma cycle_voted (inp : cycle_input) (g g' : globals)
    (l l' : locals) (log : list log_msg) (interval : Z) :
  net_vote_alive g = 0 \/ net_vote_alive g = 1 ->
  cycle inp g l = Some (Voted g' l' log interval) ->
  (net_vote_alive g' = 0 \/ net_vote_alive g' = 1)
  /\ (net_vote_alive g = 0 -> net_vote_alive g' = 1 -> ping_ret inp = 0)
  /\ (net_vote_alive g = 1 -> net_vote_alive g' = 0 -> ping_ret inp <> 0).
Proof.
  intros Hv. unfold cycle.
  destruct (tb_ip g) as [ip|]; [|discriminate].
  destruct (target_size <=? String.length ip)%nat; [discriminate|].
  assert (Hs : s8 (net_vote_alive g) = net_vote_alive g)
    by (apply s8_small; lia).
  rewrite Hs.
  destruct (Z.eqb_spec (ping_ret inp) 0) as [Hr|Hr];
    (destruct (interfere (during_ping inp) g) as [g1|]; [|discriminate]);
    (destruct (tb_ip g1) as [ip1|]; [|discriminate]);
    (destruct (negb (ip1 =? ip)%string); [discriminate|]);
    destruct Hv as [Hv|Hv]; rewrite Hv; cbn [Z.eqb negb andb];
    repeat match goal with
           | |- context [if ?c then _ else _] => destruct c
           end;
    intros H; injection H as <- _ _ _; cbn [set_vote net_vote_alive];
    repeat split; auto; intros; lia.
Qed.

(** One iteration that stores a vote changes it only with the ping:
    the vote rises from 0 to 1 only on a successful ping and falls from
    1 to 0 only on a failed one. *)
Theorem cycle_vote_follows_ping (inp : cycle_input) (g g' : globals)
    (l l' : locals) (log : list log_msg) (interval : Z) :
  net_vote_alive g = 0 \/ net_vote_alive g = 1 ->
  cycle inp g l = Some (Voted g' l' log interval) ->
  (net_vote_alive g = 0 -> net_vote_alive g' = 1 -> ping_ret inp = 0)
  /\ (net_vote_alive g = 1 -> net_vote_alive g' = 0 -> ping_ret inp <> 0).
Proof.
  intros Hv Hc.
  destruct (cycle_voted inp g g' l l' log interval Hv Hc) as [_ [Hup Hdown]].
  split; assumption.
Qed.

Lemma cycle_vote_follows_ping_witness :
  (net_vote_alive (mk_globals 1333333 1 3 1 0 (Some "10.0.0.1"%string) 0)
      = 0 ->
      net_vote_alive (mk_globals 1333333 1 3 1 1 (Some "10.0.0.1"%string) 0)
      = 1 ->
      ping_ret (mk_cycle_input 0 0 None) = 0)
  /\ (net_vote_alive (mk_globals 1333333 1 3 1 0 (Some "10.0.0.1"%string) 0)
      = 1 ->
      net_vote_alive (mk_globals 1333333 1 3 1 1 (Some "10.0.0.1"%string) 0)
      = 0 ->
      ping_ret (mk_cycle_input 0 0 None) <> 0).
Proof.
  apply (cycle_vote_follows_ping (mk_cycle_input 0 0 None)
           (mk_globals 1333333 1 3 1 0 (Some "10.0.0.1"%string) 0)
           (mk_globals 1333333 1 3 1 1 (Some "10.0.0.1"%string) 0)
           initial_locals (mk_locals 1 0) [LogOnline "10.0.0.1"] 1333333).
  - left. reflexivity.
  - reflexivity.
Defined.

Lemma cycle_vote_boolean (inp : cycle_input) (g : globals) (l : locals)
    (res : cycle_result) :
  net_vote_alive g = 0 \/ net_vote_alive g = 1 ->
  cycle inp g l = Some res ->
  match res with
  | Exited g' => net_vote_alive g' = 0
  | Restarted g' _ | Voted g' _ _ _ =>
      net_vote_alive g' = 0 \/ net_vote_alive g' = 1
  end.
Proof.
  intros Hv Hc. destruct res as [g'|g' l'|g' l' log iv].
  - unfold cycle in Hc. destruct (tb_ip g) as [ip|].
    + destruct (target_size <=? String.length ip)%nat; [discriminate|].
      destruct (ping_ret inp =? 0);
        (destruct (interfere (during_ping inp) g) as [g1|]; [|discriminate]);
        (destruct (tb_ip g1) as [ip1|]; [|discriminate]);
        repeat match type of Hc with
               | (if ?c then _ else _) = _ => destruct c
               end; discriminate.
    + injection Hc as <-. reflexivity.
  - unfold cycle in Hc. destruct (tb_ip g) as [ip|]; [|discriminate].
    destruct (target_size <=? String.length ip)%nat; [discriminate|].
    destruct (ping_ret inp =? 0);
      (destruct (interfere (during_ping inp) g) as [g1|] eqn:Hi;
       [|discriminate]);
      (destruct (tb_ip g1) as [ip1|]; [|discriminate]);
      apply interfere_vote in Hi;
      repeat match type of Hc with
             | (if ?c then _ else _) = _ => destruct c
             end; try discriminate; injection Hc as <- _; lia.
  - apply (cycle_voted inp g g' l l' log iv Hv Hc).
Qed.

(** Readers only ever see 0 or 1: started on a vote of 0 or 1, the loop
    stores nothing else, whatever the pings return and however often
    the thresholds and the target are replaced meanwhile. *)
Theorem thread_loop_votes_boolean (inputs : list cycle_input) :
  forall r r',
    net_vote_alive (run_globals r) = 0 \/ net_vote_alive (run_globals r) = 1 ->
    Forall (fun v => v = 0 \/ v = 1) (run_votes r) ->
    thread_loop inputs r = Some r' ->
    (net_vote_alive (run_globals r') = 0
     \/ net_vote_alive (run_globals r') = 1)
    /\ Forall (fun v => v = 0 \/ v = 1) (run_votes r').
Proof.
  induction inputs as [|inp inputs IH]; intros r r' Hv Hvotes;
    cbn [thread_loop].
  - intros H. injection H as <-. split; assumption.
  - destruct (cycle inp (run_globals r) (run_locals r))
      as [[g|g l|g l log iv]|] eqn:Hc; [| | |discriminate];
      pose proof (cycle_vote_boolean _ _ _ _ Hv Hc) as Hg; cbn in Hg.
    + intros H. injection H as <-. cbn. split; [left; exact Hg | exact Hvotes].
    + apply IH; cbn; assumption.
    + apply IH; cbn; [assumption|].
      apply Forall_app. split; [assumption|].
      constructor; [assumption|constructor].
Qed.

Lemma thread_loop_votes_boolean_witness :
  (net_vote_alive
     (run_globals
        (mk_run (mk_globals 1333333 9 3 1 0 (Some "10.0.0.2"%string) 0)
           (mk_locals 2 0) [0; 1; 0; 0; 0]
           [LogOnline "10.0.0.1"; LogOffline "10.0.0.1"] false)) = 0
   \/ net_vote_alive
        (run_globals
           (mk_run (mk_globals 1333333 9 3 1 0 (Some "10.0.0.2"%string) 0)
              (mk_locals 2 0) [0; 1; 0; 0; 0]
              [LogOnline "10.0.0.1"; LogOffline "10.0.0.1"] false)) = 1)
  /\ Forall (fun v => v = 0 \/ v = 1)
       (run_votes
          (mk_run (mk_globals 1333333 9 3 1 0 (Some "10.0.0.2"%string) 0)
             (mk_locals 2 0) [0; 1; 0; 0; 0]
             [LogOnline "10.0.0.1"; LogOffline "10.0.0.1"] false)).
Proof.
  apply (thread_loop_votes_boolean
           [mk_cycle_input 0 0 None; mk_cycle_input 0 0 None;
            mk_cycle_input 1 110 None;
            mk_cycle_input 1 110
              (Some (Some "10.0.0.2"%string, 10000000, 1000000));
            mk_cycle_input 0 0 None; mk_cycle_input 0 0 None]
           (mk_run (mk_globals 1333333 2 1 1 0 (Some "10.0.0.1"%string) 0)
              initial_locals [] [] false)).
  - left. reflexivity.
  - constructor.
  - vm_compute. reflexivity.
Defined.

(** ** Configuring, then voting *)

(** A successful configuration followed by a run of the thread.  For an
    accepted token timeout of at most 124 ping intervals and a target
    that fits the thread's copy, [net_tiebreaker_init] stores the target,
    clears [errno] and returns without a value; the threshold it
    publishes fits the thread's [char]; and a thread started on a dead
    vote stores 0 until that many pings in a row have succeeded, a
    number of pings whose intervals add up to the token timeout at
    least, and 1 from then on. *)
Theorem net_tiebreaker_init_then_online (fx : log_effect)
    (target : string) (fo i : Z) (g : globals) :
  2000000 <= fo -> 1 <= i ->
  in_int (fo + 3 * i) -> in_int (4 * i) ->
  fo <= 124 * i ->
  (String.length target < target_size)%nat ->
  net_vote_alive g = 0 ->
  exists r,
    net_tiebreaker_init fx (Some target) fo i g = Some r
    /\ init_ret r = None
    /\ init_errno r = 0
    /\ tb_ip (init_globals r) = Some target
    /\ 1 <= declare_online (init_globals r) <= 127
    /\ fo <= declare_online (init_globals r) * ping_interval (init_globals r)
    /\ forall inputs,
         Forall quiet_success inputs ->
         option_map run_votes (net_quorum_thread inputs (init_globals r))
         = Some (repeat 0
                   (Nat.min (List.length inputs)
                      (Z.to_nat (declare_online (init_globals r) - 1)))
                 ++ repeat 1
                      (List.length inputs
                       - Z.to_nat (declare_online (init_globals r) - 1))).
Proof.
  intros Hfo Hi Hup H4 Hratio Hlen Hv.
  destruct (get_interval_tko_values fo i g Hfo Hi Hup H4)
    as [g1 [log1 [Heq [_ [Hint [Hoff [Hon [Hwin [Hvote _]]]]]]]]].
  unfold net_tiebreaker_init. rewrite Heq.
  change (0 <? 0) with false. cbv iota.
  eexists. split; [reflexivity|].
  cbn [init_ret init_errno init_globals tb_ip declare_online ping_interval].
  assert (Hq : fo / i <= 124) by (apply Z.div_le_upper_bound; lia).
  assert (Hn : 1 <= declare_online g1 <= 127) by nia.
  repeat split; try lia.
  intros inputs Hall. rewrite Hvote, Hv.
  unfold net_quorum_thread, initial_locals.
  rewrite (dead_successes target (ping_interval g1) (declare_online g1)
             (declare_offline g1) (net_thread g1) (totem_timeout g1) inputs
             Hlen ltac:(lia) Hall 0 0 [] []) by lia.
  rewrite Z.sub_0_r. reflexivity.
Qed.

Lemma net_tiebreaker_init_then_online_witness :
  exists r,
    net_tiebreaker_init (mk_log_effect (Some 2) (Some EBADF))
      (Some "10.0.0.1"%string) 10000000 1000000 initial_globals = Some r
    /\ init_ret r = None
    /\ init_errno r = 0
    /\ tb_ip (init_globals r) = Some "10.0.0.1"%string
    /\ 1 <= declare_online (init_globals r) <= 127
    /\ 10000000
       <= declare_online (init_globals r) * ping_interval (init_globals r)
    /\ forall inputs,
         Forall quiet_success inputs ->
         option_map run_votes (net_quorum_thread inputs (init_globals r))
         = Some (repeat 0
                   (Nat.min (List.length inputs)
                      (Z.to_nat (declare_online (init_globals r) - 1)))
                 ++ repeat 1
                      (List.length inputs
                       - Z.to_nat (declare_online (init_globals r) - 1))).
Proof.
  apply (net_tiebreaker_init_then_online
           (mk_log_effect (Some 2) (Some EBADF)) "10.0.0.1" 10000000 1000000
           initial_globals).
  - lia.
  - lia.
  - in_range.
  - in_range.
  - lia.
  - unfold target_size. cbn. lia.
  - reflexivity.
Defined.

(** ** Stopping *)

(** Cancelling a registered thread resets the vote and forgets the
    target and the thread, and keeps the thresholds.  After that the
    vote reads 0, a second cancel changes nothing, and a thread started
    without a new configuration leaves its loop at the first iteration
    without storing a vote. *)
Theorem net_cancel_quorum_thread_stops (g : globals) (inp : cycle_input)
    (inputs : list cycle_input) :
  net_thread g <> 0 ->
  exists g',
    net_cancel_quorum_thread g = (0, g')
    /\ net_tiebreaker g' = 0
    /\ tb_ip g' = None
    /\ net_thread g' = 0
    /\ ping_interval g' = ping_interval g
    /\ declare_online g' = declare_online g
    /\ declare_offline g' = declare_offline g
    /\ net_cancel_quorum_thread g' = (0, g')
    /\ net_quorum_thread (inp :: inputs) g'
       = Some (mk_run g' initial_locals [] [] true).
Proof.
  intros Ht. apply Z.eqb_neq in Ht.
  unfold net_cancel_quorum_thread. rewrite Ht.
  eexists. split; [reflexivity|]. repeat split.
Qed.

Lemma net_cancel_quorum_thread_stops_witness :
  exists g',
    net_cancel_quorum_thread
      (mk_globals 1333333 9 3 7 1 (Some "10.0.0.1"%string) 0) = (0, g')
    /\ net_tiebreaker g' = 0
    /\ tb_ip g' = None
    /\ net_thread g' = 0
    /\ ping_interval g' = 1333333
    /\ declare_online g' = 9
    /\ declare_offline g' = 3
    /\ net_cancel_quorum_thread g' = (0, g')
    /\ net_quorum_thread (mk_cycle_input 0 0 None :: []) g'
       = Some (mk_run g' initial_locals [] [] true).
Proof.
  apply (net_cancel_quorum_thread_stops
           (mk_globals 1333333 9 3 7 1 (Some "10.0.0.1"%string) 0)
           (mk_cycle_input 0 0 None) []).
  discriminate.
Defined.

End VoterMore.

(* ================================================================== *)
(** * The stand-alone ping program *)
(* ================================================================== *)

Module PingMainFacts.

Import Ping.
Import PingMain.

(** ** __diff_tv *)

Lemma slong_small (z : Z) :
  -9223372036854775808 <= z < 9223372036854775808 -> slong z = z.
Proof.
  unfold slong, wraps. change (2 ^ (64 - 1)) with 9223372036854775808.
  change (2 ^ 64) with 18446744073709551616. intros H.
  rewrite Z.mod_small; lia.
Qed.

(** For two normalised times whose seconds are below 2^62 in size, the
    difference is normalised too, and it is the time elapsed. *)
Theorem diff_tv_elapsed (start end_ : timeval) :
  0 <= tv_usec start < 1000000 ->
  0 <= tv_usec end_ < 1000000 ->
  - (2 ^ 62) <= tv_sec start < 2 ^ 62 ->
  - (2 ^ 62) <= tv_sec end_ < 2 ^ 62 ->
  0 <= tv_usec (__diff_tv start end_) < 1000000
  /\ tv_sec (__diff_tv start end_) * 1000000 + tv_usec (__diff_tv start end_)
     = (tv_sec end_ * 1000000 + tv_usec end_)
       - (tv_sec start * 1000000 + tv_usec start).
Proof.
  intros Hus Hue Hss Hse. unfold __diff_tv.
  change (2 ^ 62) with 4611686018427387904 in *.
  rewrite (slong_small (tv_sec end_ - tv_sec start)) by lia.
  rewrite (slong_small (tv_usec end_ - tv_usec start)) by lia.
  destruct (Z.ltb_spec (tv_usec end_ - tv_usec start) 0).
  - rewrite !slong_small by lia. cbn [tv_sec tv_usec]. lia.
  - cbn [tv_sec tv_usec]. lia.
Qed.

Lemma diff_tv_elapsed_witness :
  0 <= tv_usec (__diff_tv (mk_timeval 10 900000) (mk_timeval 12 100000))
    < 1000000
  /\ tv_sec (__diff_tv (mk_timeval 10 900000) (mk_timeval 12 100000))
     * 1000000
     + tv_usec (__diff_tv (mk_timeval 10 900000) (mk_timeval 12 100000))
     = (tv_sec (mk_timeval 12 100000) * 1000000
        + tv_usec (mk_timeval 12 100000))
       - (tv_sec (mk_timeval 10 900000) * 1000000
          + tv_usec (mk_timeval 10 900000)).
Proof.
  apply (diff_tv_elapsed (mk_timeval 10 900000) (mk_timeval 12 100000));
    cbn; lia.
Defined.

(** ** The exit status of the stand-alone program *)

Lemma ping_loop_status (host : string) (attempts : list attempt) :
  forall sent received out,
    0 <= received <= sent ->
    sent + Z.of_nat (List.length attempts) <= INT_MAX ->
    let status := fst (ping_loop host attempts sent received out) in
    (status = 0 \/ status = 1)
    /\ (status = 0 <->
        received = sent
        /\ Forall (fun a => at_rv a = PING_SUCCESS) attempts).
Proof.
  unfold INT_MAX.
  induction attempts as [|a attempts IH]; intros sent received out Hrs Hfit.
  - cbn [ping_loop]. destruct (Z.ltb_spec received sent); cbn [fst].
    + split; [right; reflexivity|]. split; [discriminate | intros [Heq _]; lia].
    + split; [left; reflexivity|]. split; [|reflexivity].
      intros _. split; [lia | constructor].
  - cbn [List.length] in Hfit. rewrite Nat2Z.inj_succ in Hfit.
    cbn [ping_loop]. cbv zeta.
    rewrite (s32_in_int (sent + 1)) by (unfold in_int, INT_MIN, INT_MAX; lia).
    assert (Hfail : forall out',
              at_rv a <> PING_SUCCESS ->
              let status :=
                fst (ping_loop host attempts (sent + 1) received out') in
              (status = 0 \/ status = 1)
              /\ (status = 0 <->
                  received = sent
                  /\ Forall (fun a => at_rv a = PING_SUCCESS)
                       (a :: attempts))).
    { intros out' Hne status.
      destruct (IH (sent + 1) received out' ltac:(lia) ltac:(lia))
        as [H01 Hiff].
      fold status in H01, Hiff. split; [exact H01|].
      split.
      - intros H0. apply Hiff in H0. lia.
      - intros [_ Hall]. inversion Hall; subst. contradiction. }
    assert (Hstop : at_rv a <> PING_SUCCESS ->
              forall out' : list out_msg,
                (fst (1, out') = 0 \/ fst (1, out') = 1)
                /\ (fst (1, out') = 0 <->
                    received = sent
                    /\ Forall (fun a => at_rv a = PING_SUCCESS)
                         (a :: attempts))).
    { intros Hne out'. cbn [fst]. split; [right; reflexivity|].
      split; [discriminate|].
      intros [_ Hall]. inversion Hall; subst. contradiction. }
    unfold PING_ERRNO, PING_SUCCESS, PING_TIMEOUT, PING_HOST_UNREACH,
      PING_HOST_NOT_FOUND, PING_INVALID_CHECKSUM, PING_INVALID_SIZE,
      PING_INVALID_RESPONSE, PING_INVALID_ID in *.
    destruct (Z.eqb_spec (at_rv a) (-1)); [apply Hstop; lia|].
    destruct (Z.eqb_spec (at_rv a) 0) as [H0|H0].
    + rewrite (s32_in_int (received + 1))
        by (unfold in_int, INT_MIN, INT_MAX; lia).
      destruct (IH (sent + 1) (received + 1)
                  (out
                   ++ [OutReply (received + 1)
                         (s32 (tv_sec (__diff_tv (at_begin a) (at_end a))))
                         (s32 (tv_usec (__diff_tv (at_begin a) (at_end a))))])
                  ltac:(lia) ltac:(lia))
        as [H01 Hiff].
      split; [exact H01|]. rewrite Hiff. split.
      * intros [Hr Hall]. split; [lia|]. constructor; assumption.
      * intros [Hr Hall]. inversion Hall; subst. split; [lia|assumption].
    + destruct (Z.eqb_spec (at_rv a) 1); [apply Hfail; lia|].
      destruct (Z.eqb_spec (at_rv a) 2); [apply Hfail; lia|].
      destruct (Z.eqb_spec (at_rv a) 3); [apply Hstop; lia|].
      destruct (Z.eqb_spec (at_rv a) 4); [apply Hfail; lia|].
      destruct (Z.eqb_spec (at_rv a) 6); [apply Hfail; lia|].
      destruct (Z.eqb_spec (at_rv a) 5); [apply Hfail; lia|].
      destruct (Z.eqb_spec (at_rv a) 7); [apply Hfail; lia|].
      apply Hfail. lia.
Qed.

(** Given a host, the program exits with status 0 exactly when every
    ping made before the signal returned [PING_SUCCESS] (none made
    included), and with status 1 otherwise; without a host argument it
    exits with status 2. *)
Theorem main_exit_status (argv : list string) (attempts : list attempt) :
  Z.of_nat (List.length attempts) <= INT_MAX ->
  match argv with
  | _ :: _ :: _ =>
      (fst (main argv attempts) = 0 \/ fst (main argv attempts) = 1)
      /\ (fst (main argv attempts) = 0 <->
          Forall (fun a => at_rv a = PING_SUCCESS) attempts)
  | _ => fst (main argv attempts) = 2
  end.
Proof.
  intros Hfit. destruct argv as [|name [|host argv]]; try reflexivity.
  cbn [main].
  destruct (ping_loop_status host attempts 0 0 [OutPinging host]
              ltac:(lia) ltac:(lia)) as [H01 Hiff].
  split; [exact H01|]. rewrite Hiff. tauto.
Qed.

Lemma main_exit_status_witness :
  (fst (main ["ping"%string; "10.0.0.1"%string]
          [mk_attempt (mk_timeval 10 900000) 0 (mk_timeval 12 100000);
           mk_attempt (mk_timeval 13 0) PING_TIMEOUT (mk_timeval 15 0)]) = 0
   \/ fst (main ["ping"%string; "10.0.0.1"%string]
             [mk_attempt (mk_timeval 10 900000) 0 (mk_timeval 12 100000);
              mk_attempt (mk_timeval 13 0) PING_TIMEOUT (mk_timeval 15 0)])
      = 1)
  /\ (fst (main ["ping"%string; "10.0.0.1"%string]
             [mk_attempt (mk_timeval 10 900000) 0 (mk_timeval 12 100000);
              mk_attempt (mk_timeval 13 0) PING_TIMEOUT (mk_timeval 15 0)])
      = 0 <->
      Forall (fun a => at_rv a = PING_SUCCESS)
        [mk_attempt (mk_timeval 10 900000) 0 (mk_timeval 12 100000);
         mk_attempt (mk_timeval 13 0) PING_TIMEOUT (mk_timeval 15 0)]).
Proof.
  apply (main_exit_status ["ping"%string; "10.0.0.1"%string]
           [mk_attempt (mk_timeval 10 900000) 0 (mk_timeval 12 100000);
            mk_attempt (mk_timeval 13 0) PING_TIMEOUT (mk_timeval 15 0)]).
  unfold INT_MAX. cbn. lia.
Defined.

End PingMainFacts.

(* ================================================================== *)
(** * qnet.c *)
(* ================================================================== *)

Module QnetFacts.

Import NetTieFacts.
Import Qnet.

(** ** node_count *)

(** With more entries still to visit than the array holds, the loop runs
    past the array. *)
Lemma node_count_loop_overruns (array : list Z) :
  forall x retnodes,
    0 <= x ->
    Z.of_nat (List.length array) < retnodes - x ->
    retnodes + Z.of_nat (List.length array) <= INT_MAX ->
    node_count_loop array x retnodes = None.
Proof.
  unfold INT_MAX.
  induction array as [|m array IH]; intros x retnodes Hx Hgap Hfit;
    cbn [node_count_loop List.length] in *.
  - destruct (Z.ltb_spec x retnodes); [reflexivity|lia].
  - rewrite Nat2Z.inj_succ in *.
    destruct (Z.ltb_spec x retnodes); [|lia].
    rewrite (s32_in_int (x + 1)) by in_range.
    destruct (negb (m =? 0)).
    + rewrite (s32_in_int (retnodes + 1)) by in_range. apply IH; lia.
    + apply IH; lia.
Qed.

Lemma node_count_loop_no_member (array : list Z) :
  forall x retnodes,
    0 <= x <= retnodes ->
    retnodes - x <= Z.of_nat (List.length array) ->
    retnodes <= INT_MAX ->
    Forall (fun m => m = 0) (firstn (Z.to_nat (retnodes - x)) array) ->
    node_count_loop array x retnodes = Some retnodes.
Proof.
  unfold INT_MAX.
  induction array as [|m array IH]; intros x retnodes Hx Hgap Hfit Hall;
    cbn [node_count_loop List.length] in *.
  - destruct (Z.ltb_spec x retnodes); [lia|reflexivity].
  - rewrite Nat2Z.inj_succ in *.
    destruct (Z.ltb_spec x retnodes); [|reflexivity].
    replace (Z.to_nat (retnodes - x))
      with (S (Z.to_nat (retnodes - (x + 1)))) in Hall by lia.
    cbn [firstn] in Hall. inversion Hall as [|? ? Hm Hrest]; subst.
    cbn [Z.eqb negb].
    rewrite (s32_in_int (x + 1)) by in_range. apply IH; try lia. exact Hrest.
Qed.

Lemma node_count_loop_member (array : list Z) :
  forall x retnodes,
    0 <= x ->
    retnodes - x = Z.of_nat (List.length array) ->
    retnodes + Z.of_nat (List.length array) <= INT_MAX ->
    Exists (fun m => m <> 0) array ->
    node_count_loop array x retnodes = None.
Proof.
  unfold INT_MAX.
  induction array as [|m array IH]; intros x retnodes Hx Hgap Hfit Hex;
    cbn [node_count_loop List.length] in *.
  - inversion Hex.
  - rewrite Nat2Z.inj_succ in *.
    destruct (Z.ltb_spec x retnodes); [|lia].
    rewrite (s32_in_int (x + 1)) by in_range.
    destruct (Z.eqb_spec m 0) as [Hm|Hm]; cbn [negb].
    + inversion Hex as [? ? Hne|? ? Hrest]; subst; [contradiction|].
      apply IH; try lia. exact Hrest.
    + rewrite (s32_in_int (retnodes + 1)) by in_range.
      apply node_count_loop_overruns; unfold INT_MAX; lia.
Qed.

(** [node_count] does not count members.  When none of the nodes that
    [cman_get_nodes] stored is a member it returns the number of nodes
    stored.  When [cman_get_nodes] filled the whole array and some node
    is a member, the loop bound grows with every member found and the
    loop reads past the end of the array. *)
Theorem node_count_result (count retnodes : Z) (cn_member : list Z) :
  1 <= count < 2 ^ 30 ->
  Z.of_nat (List.length cn_member) = count ->
  0 <= retnodes <= count ->
  (Forall (fun m => m = 0) (firstn (Z.to_nat retnodes) cn_member) ->
   node_count count true (GetNodes retnodes cn_member) = Some retnodes)
  /\ (retnodes = count ->
      Exists (fun m => m <> 0) cn_member ->
      node_count count true (GetNodes retnodes cn_member) = None).
Proof.
  change (2 ^ 30) with 1073741824. intros Hc Hlen Hr.
  unfold node_count. cbv zeta.
  destruct (Z.leb_spec count 0); [lia|]. cbn [negb].
  rewrite (firstn_all2 (n := Z.to_nat count) cn_member) by lia.
  split.
  - intros Hall. apply node_count_loop_no_member; unfold INT_MAX; try lia.
    rewrite Z.sub_0_r. exact Hall.
  - intros -> Hex. apply node_count_loop_member; unfold INT_MAX; try lia.
    exact Hex.
Qed.

Lemma node_count_result_witness :
  (Forall (fun m => m = 0) (firstn (Z.to_nat 2) [0; 0]) ->
   node_count 2 true (GetNodes 2 [0; 0]) = Some 2)
  /\ (2 = 2 ->
      Exists (fun m => m <> 0) [0; 0] ->
      node_count 2 true (GetNodes 2 [0; 0]) = None).
Proof.
  apply (node_count_result 2 2 [0; 0]).
  - change (2 ^ 30) with 1073741824. lia.
  - reflexivity.
  - lia.
Defined.

(** A cluster of two nodes that are both members: the call has no
    defined result. *)
Lemma node_count_two_members :
  node_count 2 true (GetNodes 2 [1; 1]) = None.
Proof. reflexivity. Qed.


End QnetFacts.
